(** * Plant Health Monitoring System: a shallow embedding of
    [smartirrigation_finalcode.ino]

    The sketch keeps seven global variables, recomputes them once per
    [loop()] tick from four sensor reads, drives one relay pin and serves two
    JSON documents.  The embedding follows the sketch function by function:

    - C++ [float] is IEEE 754 binary32 and [double] is binary64, both taken
      from the Standard Library's [SpecFloat] (round to nearest even, signed
      zeros, infinities and NaN);
    - C++ [int] and [long] are 32-bit on the ESP8266: integers are [Z] with
      the wrap-around written out;
    - Arduino [String] is [string];
    - the globals live in a record, the hardware (relay latch, serial console,
      Wi-Fi state, registered routes) in a second record around it, and every
      function of the sketch is a transformer of that state. *)

From Stdlib Require Import ZArith Bool List String Ascii Lia.
From Stdlib Require Import Floats.SpecFloat.
Import ListNotations.

Local Open Scope Z_scope.
Local Open Scope string_scope.

(** ** Machine numbers *)

Module Int32.

(** Two's complement wrap-around of a 32-bit signed integer. *)
Definition wrap (z : Z) : Z := (z + 2147483648) mod 4294967296 - 2147483648.

Definition in_range (z : Z) : Prop := -2147483648 <= z <= 2147483647.

Definition add (a b : Z) : Z := wrap (a + b).
Definition sub (a b : Z) : Z := wrap (a - b).
Definition mul (a b : Z) : Z := wrap (a * b).

(** C division truncates towards zero. *)
Definition div (a b : Z) : Z := wrap (Z.quot a b).

End Int32.

(** C++ [float]: IEEE 754 binary32. *)
Module F32.

Definition prec : Z := 24.
Definition emax : Z := 128.

Definition float : Type := spec_float.

(** Conversion of an integer ([int] or [long]) to [float]. *)
Definition of_Z (z : Z) : float := binary_normalize prec emax z 0 false.

Definition ltb (a b : float) : bool := SFltb a b.
Definition gtb (a b : float) : bool := SFltb b a.
Definition leb (a b : float) : bool := SFleb a b.
Definition eqb (a b : float) : bool := SFeqb a b.

Definition valid (a : float) : bool := valid_binary prec emax a.

End F32.

(** C++ [double]: IEEE 754 binary64. *)
Module F64.

Definition prec : Z := 53.
Definition emax : Z := 1024.

Definition double : Type := spec_float.

Definition of_Z (z : Z) : double := binary_normalize prec emax z 0 false.

Definition signed_mantissa (s : bool) (m : positive) : Z :=
  if s then Zneg m else Zpos m.

(** Promotion [float -> double]: every binary32 value is a binary64 value. *)
Definition of_float (x : F32.float) : double :=
  match x with
  | S754_finite s m e => binary_normalize prec emax (signed_mantissa s m) e s
  | _ => x
  end.

(** Narrowing [double -> float]: rounds to nearest even, overflows to an
    infinity, underflows to a signed zero. *)
Definition to_float (x : double) : F32.float :=
  match x with
  | S754_finite s m e =>
      binary_normalize F32.prec F32.emax (signed_mantissa s m) e s
  | _ => x
  end.

Definition div (a b : double) : double := SFdiv prec emax a b.
Definition mul (a b : double) : double := SFmul prec emax a b.

End F64.

(** ** The Arduino core function [map]

    Modelled from the spec: [map] belongs to the Arduino core, not to the
    sketch.  The spec describes it as the linear map of the raw range onto
    the percentage range, without clamping; the definition is the Arduino
    reference formula
    [(x - in_min) * (out_max - out_min) / (in_max - in_min) + out_min]
    on [long], with C's truncating division. *)
Definition map (x in_min in_max out_min out_max : Z) : Z :=
  Int32.add
    (Int32.div (Int32.mul (Int32.sub x in_min) (Int32.sub out_max out_min))
               (Int32.sub in_max in_min))
    out_min.

(** ** Global variables of the sketch *)

Record Globals : Type := mkGlobals {
  moisturePercentage : F32.float;
  lightPercentage : F32.float;
  temperature : F32.float;
  humidity : F32.float;
  plantType : string;
  plantHealthStatus : string;
  plantHealthReason : string
}.

(** The static initialisers of lines 36-46. *)
Definition initial_globals : Globals := {|
  moisturePercentage := S754_zero false;
  lightPercentage := S754_zero false;
  temperature := S754_zero false;
  humidity := S754_zero false;
  plantType := "Default Plant";
  plantHealthStatus := "Good";
  plantHealthReason := ""
|}.

(** Assignments to one global. *)
Definition set_moisturePercentage (v : F32.float) (g : Globals) : Globals :=
  mkGlobals v (lightPercentage g) (temperature g) (humidity g)
            (plantType g) (plantHealthStatus g) (plantHealthReason g).

Definition set_lightPercentage (v : F32.float) (g : Globals) : Globals :=
  mkGlobals (moisturePercentage g) v (temperature g) (humidity g)
            (plantType g) (plantHealthStatus g) (plantHealthReason g).

Definition set_temperature (v : F32.float) (g : Globals) : Globals :=
  mkGlobals (moisturePercentage g) (lightPercentage g) v (humidity g)
            (plantType g) (plantHealthStatus g) (plantHealthReason g).

Definition set_humidity (v : F32.float) (g : Globals) : Globals :=
  mkGlobals (moisturePercentage g) (lightPercentage g) (temperature g) v
            (plantType g) (plantHealthStatus g) (plantHealthReason g).

Definition set_plantHealthStatus (v : string) (g : Globals) : Globals :=
  mkGlobals (moisturePercentage g) (lightPercentage g) (temperature g)
            (humidity g) (plantType g) v (plantHealthReason g).

Definition set_plantHealthReason (v : string) (g : Globals) : Globals :=
  mkGlobals (moisturePercentage g) (lightPercentage g) (temperature g)
            (humidity g) (plantType g) (plantHealthStatus g) v.

(** [plantHealthReason += v]. *)
Definition append_plantHealthReason (v : string) (g : Globals) : Globals :=
  set_plantHealthReason (plantHealthReason g ++ v) g.

(** ** [updatePlantHealth] (lines 48-72) *)

(** The four range tests, each with the comparison that picks its message. *)
Definition temperature_low (g : Globals) : bool :=
  F32.ltb (temperature g) (F32.of_Z 18).
Definition temperature_high (g : Globals) : bool :=
  F32.gtb (temperature g) (F32.of_Z 24).
Definition humidity_low (g : Globals) : bool :=
  F32.ltb (humidity g) (F32.of_Z 40).
Definition humidity_high (g : Globals) : bool :=
  F32.gtb (humidity g) (F32.of_Z 65).
Definition light_low (g : Globals) : bool :=
  F32.ltb (lightPercentage g) (F32.of_Z 60).
Definition light_high (g : Globals) : bool :=
  F32.gtb (lightPercentage g) (F32.of_Z 80).
Definition moisture_low (g : Globals) : bool :=
  F32.ltb (moisturePercentage g) (F32.of_Z 50).
Definition moisture_high (g : Globals) : bool :=
  F32.gtb (moisturePercentage g) (F32.of_Z 80).

Definition updatePlantHealth (g : Globals) : Globals :=
  let g := set_plantHealthStatus "Good" g in
  let g := set_plantHealthReason "" g in
  let g :=
    if temperature_low g || temperature_high g then
      let g := set_plantHealthStatus "At Risk" g in
      append_plantHealthReason
        (if temperature_low g then "Temperature too low; "
         else "Temperature too high; ") g
    else g in
  let g :=
    if humidity_low g || humidity_high g then
      let g := set_plantHealthStatus "At Risk" g in
      append_plantHealthReason
        (if humidity_low g then "Humidity too low; "
         else "Humidity too high; ") g
    else g in
  let g :=
    if light_low g || light_high g then
      let g := set_plantHealthStatus "At Risk" g in
      append_plantHealthReason
        (if light_low g then "Light too low; " else "Light too high; ") g
    else g in
  let g :=
    if moisture_low g || moisture_high g then
      let g := set_plantHealthStatus "At Risk" g in
      append_plantHealthReason
        (if moisture_low g then "Moisture too low" else "Moisture too high") g
    else g in
  g.

(** ** Hardware and library state around the globals *)

Inductive pin_level : Type := LOW | HIGH.

(** Calls into the vendor libraries that only act on the outside world. *)
Inductive event : Type :=
| Ev_pinMode_OUTPUT
| Ev_digitalWrite (level : pin_level)
| Ev_u8g2_begin
| Ev_u8g2_setFont
| Ev_Wire_begin
| Ev_lightMeter_begin
| Ev_dht_begin
| Ev_delay (ms : Z)
| Ev_Serial_begin (baud : Z)
| Ev_Serial_print (s : string)
| Ev_Serial_println (s : string)
| Ev_Serial_println_localIP
| Ev_WiFi_begin (ssid password : string)
| Ev_u8g2_page (moisture light temp hum : F32.float)
| Ev_server_on (uri : string)
| Ev_server_begin.

Record Response : Type := mkResponse {
  code : Z;
  contentType : string;
  content : string
}.

Inductive http_method : Type := HTTP_GET | HTTP_POST | HTTP_PUT | HTTP_DELETE.

(** A request handler is a lambda without captures: all it can reach is the
    globals. *)
Definition handler : Type := Globals -> Response * Globals.

Record route : Type := mkRoute {
  route_uri : string;
  route_method : http_method;
  route_handler : handler
}.

Record World : Type := mkWorld {
  globals : Globals;
  (** output latch of [RELAY_PIN] *)
  relay : pin_level;
  (** what [WiFi.status()] returns at its n-th call; the radio decides *)
  wifi_status : nat -> Z;
  (** number of calls of [WiFi.status()] so far *)
  wifi_polls : nat;
  (** handlers registered with [server.on], in registration order *)
  routes : list route;
  (** [server.begin()] has been called *)
  listening : bool;
  (** library calls, most recent first *)
  log : list event
}.

Definition with_globals (f : Globals -> Globals) (w : World) : World :=
  mkWorld (f (globals w)) (relay w) (wifi_status w) (wifi_polls w)
          (routes w) (listening w) (log w).

Definition emit (e : event) (w : World) : World :=
  mkWorld (globals w) (relay w) (wifi_status w) (wifi_polls w)
          (routes w) (listening w) (e :: log w).

Definition digitalWrite_RELAY_PIN (level : pin_level) (w : World) : World :=
  emit (Ev_digitalWrite level)
    (mkWorld (globals w) level (wifi_status w) (wifi_polls w)
             (routes w) (listening w) (log w)).

Definition delay (ms : Z) (w : World) : World := emit (Ev_delay ms) w.

Definition Serial_println (s : string) (w : World) : World :=
  emit (Ev_Serial_println s) w.

Definition Serial_print (s : string) (w : World) : World :=
  emit (Ev_Serial_print s) w.

(** [WiFi.status()]: consumes one answer of the radio. *)
Definition WiFi_status (w : World) : Z * World :=
  (wifi_status w (wifi_polls w),
   mkWorld (globals w) (relay w) (wifi_status w) (S (wifi_polls w))
           (routes w) (listening w) (log w)).

Definition server_on (uri : string) (m : http_method) (h : handler)
  (w : World) : World :=
  emit (Ev_server_on uri)
    (mkWorld (globals w) (relay w) (wifi_status w) (wifi_polls w)
             (routes w ++ [mkRoute uri m h])%list (listening w) (log w)).

Definition server_begin (w : World) : World :=
  emit Ev_server_begin
    (mkWorld (globals w) (relay w) (wifi_status w) (wifi_polls w)
             (routes w) true (log w)).

(** ** [loop] (lines 127-172) *)

(** What the four sensor reads of one tick return. *)
Record Sensors : Type := mkSensors {
  analogRead_MOISTURE_PIN : Z;
  readLightLevel : F32.float;
  readTemperature : F32.float;
  readHumidity : F32.float
}.

(** Lines 129-130. *)
Definition read_moisture (s : Sensors) (w : World) : World :=
  let rawMoisture := Int32.wrap (analogRead_MOISTURE_PIN s) in
  with_globals
    (set_moisturePercentage (F32.of_Z (map rawMoisture 405 870 100 0))) w.

(** Lines 133-135: the arithmetic is done in [double] because of the
    literals [1000.0] and [100.0]; the assignment narrows to [float]. *)
Definition light_conversion (lightIntensity : F32.float) : F32.float :=
  F64.to_float
    (F64.mul (F64.div (F64.of_float lightIntensity) (F64.of_Z 1000))
             (F64.of_Z 100)).

Definition read_light (s : Sensors) (w : World) : World :=
  let lightIntensity := readLightLevel s in
  let w := with_globals (set_lightPercentage (light_conversion lightIntensity)) w in
  if F32.gtb (lightPercentage (globals w)) (F32.of_Z 100)
  then with_globals (set_lightPercentage (F32.of_Z 100)) w
  else w.

(** Lines 138-139. *)
Definition read_dht (s : Sensors) (w : World) : World :=
  let w := with_globals (set_temperature (readTemperature s)) w in
  with_globals (set_humidity (readHumidity s)) w.

(** Lines 145-149. *)
Definition control_relay (w : World) : World :=
  if F32.ltb (moisturePercentage (globals w)) (F32.of_Z 50)
  then digitalWrite_RELAY_PIN LOW w
  else digitalWrite_RELAY_PIN HIGH w.

(** Lines 152-169: the display is a full-buffer one, the page loop draws
    the four values once. *)
Definition display (w : World) : World :=
  let g := globals w in
  emit (Ev_u8g2_page (moisturePercentage g) (lightPercentage g)
                     (temperature g) (humidity g)) w.

Definition loop (s : Sensors) (w : World) : World :=
  let w := read_moisture s w in
  let w := read_light s w in
  let w := read_dht s w in
  let w := with_globals updatePlantHealth w in
  let w := control_relay w in
  let w := display w in
  delay 1000 w.

(** ** [setup] and the HTTP routes (lines 80-125 and 174-196) *)

Definition MAX_WIFI_RETRIES : Z := 10.
Definition WIFI_RETRY_DELAY : Z := 1000.
Definition ssid : string := "Digicel_WiFi_gVdj".
Definition password : string := "kPT9sAWB".

(** [wl_status_t] of the ESP8266 core. *)
Definition WL_CONNECTED : Z := 3.

(** The [while] of lines 112-116.  [fuel] bounds the number of times the
    condition is evaluated; the result is [None] when it does not suffice. *)
Fixpoint wifi_wait (fuel : nat) (wifiRetries : Z) (w : World)
  : option (Z * World) :=
  match fuel with
  | O => None
  | S fuel' =>
      let (st, w) := WiFi_status w in
      if negb (Z.eqb st WL_CONNECTED) && Z.ltb wifiRetries MAX_WIFI_RETRIES then
        let w := delay WIFI_RETRY_DELAY w in
        let w := Serial_println "Connecting to WiFi..." w in
        wifi_wait fuel' (Int32.add wifiRetries 1) w
      else Some (wifiRetries, w)
  end.

(** The character [34], which a C++ literal writes as backslash-quote. *)
Definition dq : string := String (ascii_of_nat 34) EmptyString.

Section Server.

(** Arduino's [String(float)] constructor (fixed-point text with two
    decimals), part of the core. *)
Variable String_of_float : F32.float -> string.

(** Lines 176-184. *)
Definition readings_handler : handler := fun g =>
  let json := "{" in
  let json := json ++ ((dq ++ "moisture" ++ dq ++ ":")
                       ++ String_of_float (moisturePercentage g) ++ ",") in
  let json := json ++ ((dq ++ "light" ++ dq ++ ":")
                       ++ String_of_float (lightPercentage g) ++ ",") in
  let json := json ++ ((dq ++ "temperature" ++ dq ++ ":")
                       ++ String_of_float (temperature g) ++ ",") in
  let json := json ++ ((dq ++ "humidity" ++ dq ++ ":")
                       ++ String_of_float (humidity g)) in
  let json := json ++ "}" in
  (mkResponse 200 "application/json" json, g).

(** Lines 187-193. *)
Definition health_handler : handler := fun g =>
  let json := "{" in
  let json := json ++ ((dq ++ "status" ++ dq ++ ":" ++ dq)
                       ++ plantHealthStatus g ++ (dq ++ ",")) in
  let json := json ++ ((dq ++ "reason" ++ dq ++ ":" ++ dq)
                       ++ plantHealthReason g ++ dq) in
  let json := json ++ "}" in
  (mkResponse 200 "application/json" json, g).

Definition setupServerRoutes (w : World) : World :=
  let w := server_on "/readings" HTTP_GET readings_handler w in
  let w := server_on "/health" HTTP_GET health_handler w in
  server_begin w.

Definition setup (fuel : nat) (w : World) : option World :=
  let w := emit Ev_pinMode_OUTPUT w in
  let w := digitalWrite_RELAY_PIN HIGH w in
  let w := emit Ev_u8g2_begin w in
  let w := emit Ev_u8g2_setFont w in
  let w := emit Ev_Wire_begin w in
  let w := emit Ev_lightMeter_begin w in
  let w := emit Ev_dht_begin w in
  let w := delay 2000 w in
  let w := emit (Ev_Serial_begin 9600) w in
  let w := emit (Ev_WiFi_begin ssid password) w in
  let wifiRetries := 0 in
  match wifi_wait fuel wifiRetries w with
  | None => None
  | Some (wifiRetries, w) =>
      let (st, w) := WiFi_status w in
      let w :=
        if Z.eqb st WL_CONNECTED then
          let w := Serial_println "Connected to WiFi" w in
          let w := Serial_print "IP Address: " w in
          emit Ev_Serial_println_localIP w
        else
          Serial_println "Failed to connect to WiFi after multiple attempts" w in
      Some (setupServerRoutes w)
  end.

(** ** Serving a request *)

Definition http_method_eqb (a b : http_method) : bool :=
  match a, b with
  | HTTP_GET, HTTP_GET | HTTP_POST, HTTP_POST
  | HTTP_PUT, HTTP_PUT | HTTP_DELETE, HTTP_DELETE => true
  | _, _ => false
  end.

(** The first registered route with this URI and method answers. *)
Fixpoint find_route (m : http_method) (uri : string) (rs : list route)
  : option handler :=
  match rs with
  | [] => None
  | r :: rs' =>
      if String.eqb (route_uri r) uri && http_method_eqb (route_method r) m
      then Some (route_handler r)
      else find_route m uri rs'
  end.

(** One request against a listening server.  [None] stands for the
    library's own answer when no route of the sketch matches. *)
Definition serve (m : http_method) (uri : string) (w : World)
  : option Response * World :=
  if listening w then
    match find_route m uri (routes w) with
    | Some h =>
        let (r, g) := h (globals w) in
        (Some r, with_globals (fun _ => g) w)
    | None => (None, w)
    end
  else (None, w).

(** ** The states the running program goes through *)

(** The world at power-on: the static initialisers have run, nothing is
    registered with the server. *)
Definition booted (w : World) : Prop :=
  globals w = initial_globals /\ routes w = [] /\ listening w = false.

Inductive reachable : World -> Prop :=
| reach_setup : forall fuel w0 w,
    booted w0 -> setup fuel w0 = Some w -> reachable w
| reach_loop : forall s w,
    reachable w -> reachable (loop s w)
| reach_serve : forall m uri w,
    reachable w -> reachable (snd (serve m uri w)).

End Server.

(** * Properties *)

(** ** Vocabulary of the statements *)

(** [needle] occurs in [hay] as a contiguous substring. *)
Fixpoint starts_with (needle hay : string) : bool :=
  match needle, hay with
  | EmptyString, _ => true
  | String a n', String b h' => Ascii.eqb a b && starts_with n' h'
  | String _ _, EmptyString => false
  end.

Fixpoint contains (needle hay : string) : bool :=
  starts_with needle hay
  || match hay with
     | EmptyString => false
     | String _ h' => contains needle h'
     end.

(** A check is violated when its reading is outside its range. *)
Definition temperature_violated (g : Globals) : bool :=
  temperature_low g || temperature_high g.
Definition humidity_violated (g : Globals) : bool :=
  humidity_low g || humidity_high g.
Definition light_violated (g : Globals) : bool :=
  light_low g || light_high g.
Definition moisture_violated (g : Globals) : bool :=
  moisture_low g || moisture_high g.

(** What a check adds to the reason: its message when violated, nothing
    otherwise. *)
Definition temperature_fragment (g : Globals) : string :=
  if temperature_low g then "Temperature too low; "
  else if temperature_high g then "Temperature too high; " else "".
Definition humidity_fragment (g : Globals) : string :=
  if humidity_low g then "Humidity too low; "
  else if humidity_high g then "Humidity too high; " else "".
Definition light_fragment (g : Globals) : string :=
  if light_low g then "Light too low; "
  else if light_high g then "Light too high; " else "".
Definition moisture_fragment (g : Globals) : string :=
  if moisture_low g then "Moisture too low"
  else if moisture_high g then "Moisture too high" else "".

(** The globals of the spec's four-violation example: temperature 16,
    humidity 70, light 50 %, moisture 90 %. *)
Definition example_all_violated : Globals := {|
  moisturePercentage := F32.of_Z 90;
  lightPercentage := F32.of_Z 50;
  temperature := F32.of_Z 16;
  humidity := F32.of_Z 70;
  plantType := "Default Plant";
  plantHealthStatus := "Good";
  plantHealthReason := ""
|}.

(** ** The classifier *)

(** The four [if] blocks of [updatePlantHealth], one by one. *)
Definition check_temperature (g : Globals) : Globals :=
  if temperature_low g || temperature_high g then
    append_plantHealthReason
      (if temperature_low g then "Temperature too low; "
       else "Temperature too high; ") (set_plantHealthStatus "At Risk" g)
  else g.

Definition check_humidity (g : Globals) : Globals :=
  if humidity_low g || humidity_high g then
    append_plantHealthReason
      (if humidity_low g then "Humidity too low; "
       else "Humidity too high; ") (set_plantHealthStatus "At Risk" g)
  else g.

Definition check_light (g : Globals) : Globals :=
  if light_low g || light_high g then
    append_plantHealthReason
      (if light_low g then "Light too low; "
       else "Light too high; ") (set_plantHealthStatus "At Risk" g)
  else g.

Definition check_moisture (g : Globals) : Globals :=
  if moisture_low g || moisture_high g then
    append_plantHealthReason
      (if moisture_low g then "Moisture too low"
       else "Moisture too high") (set_plantHealthStatus "At Risk" g)
  else g.

Lemma updatePlantHealth_stages (g : Globals) :
  updatePlantHealth g =
  check_moisture (check_light (check_humidity (check_temperature
    (set_plantHealthReason "" (set_plantHealthStatus "Good" g))))).
Proof. reflexivity. Qed.

Lemma append_empty_r (s : string) : s ++ "" = s.
Proof. induction s as [|c s IH]; cbn; [reflexivity | now rewrite IH]. Qed.

Lemma append_assoc (a b c : string) : (a ++ b) ++ c = a ++ (b ++ c).
Proof. induction a as [|x a IH]; cbn; [reflexivity | now rewrite IH]. Qed.

Ltac unfold_checks :=
  unfold temperature_violated, humidity_violated, light_violated,
    moisture_violated, temperature_fragment, humidity_fragment,
    light_fragment, moisture_fragment,
    temperature_low, temperature_high, humidity_low, humidity_high,
    light_low, light_high, moisture_low, moisture_high,
    append_plantHealthReason, set_plantHealthReason, set_plantHealthStatus;
  cbn [moisturePercentage lightPercentage temperature humidity
       plantType plantHealthStatus plantHealthReason].

(** Names the eight comparisons, so that a proof can go by cases on them. *)
Ltac abstract_checks mp lp t h :=
  generalize (F32.ltb t (F32.of_Z 18)), (F32.gtb t (F32.of_Z 24)),
             (F32.ltb h (F32.of_Z 40)), (F32.gtb h (F32.of_Z 65)),
             (F32.ltb lp (F32.of_Z 60)), (F32.gtb lp (F32.of_Z 80)),
             (F32.ltb mp (F32.of_Z 50)), (F32.gtb mp (F32.of_Z 80));
  intros tl th hl hh ll lh ml mh.

Ltac stage_eq check :=
  intros [mp lp t h pt st rs]; unfold check; unfold_checks;
  match goal with
  | |- context [if ?a || ?b then _ else _] => destruct a, b
  end; cbn [orb]; rewrite ?append_empty_r; reflexivity.

Lemma check_temperature_eq : forall g,
  check_temperature g =
  mkGlobals (moisturePercentage g) (lightPercentage g) (temperature g)
    (humidity g) (plantType g)
    (if temperature_violated g then "At Risk" else plantHealthStatus g)
    (plantHealthReason g ++ temperature_fragment g).
Proof. stage_eq check_temperature. Qed.

Lemma check_humidity_eq : forall g,
  check_humidity g =
  mkGlobals (moisturePercentage g) (lightPercentage g) (temperature g)
    (humidity g) (plantType g)
    (if humidity_violated g then "At Risk" else plantHealthStatus g)
    (plantHealthReason g ++ humidity_fragment g).
Proof. stage_eq check_humidity. Qed.

Lemma check_light_eq : forall g,
  check_light g =
  mkGlobals (moisturePercentage g) (lightPercentage g) (temperature g)
    (humidity g) (plantType g)
    (if light_violated g then "At Risk" else plantHealthStatus g)
    (plantHealthReason g ++ light_fragment g).
Proof. stage_eq check_light. Qed.

Lemma check_moisture_eq : forall g,
  check_moisture g =
  mkGlobals (moisturePercentage g) (lightPercentage g) (temperature g)
    (humidity g) (plantType g)
    (if moisture_violated g then "At Risk" else plantHealthStatus g)
    (plantHealthReason g ++ moisture_fragment g).
Proof. stage_eq check_moisture. Qed.

(** The classifier touches the status and the reason only; the reason is
    the four fragments in source order. *)
Lemma updatePlantHealth_eq (g : Globals) :
  updatePlantHealth g =
  mkGlobals (moisturePercentage g) (lightPercentage g) (temperature g)
    (humidity g) (plantType g)
    (if temperature_violated g || humidity_violated g
        || light_violated g || moisture_violated g
     then "At Risk" else "Good")
    (temperature_fragment g ++ humidity_fragment g
     ++ light_fragment g ++ moisture_fragment g).
Proof.
  rewrite updatePlantHealth_stages.
  destruct g as [mp lp t h pt st rs].
  rewrite check_temperature_eq; unfold_checks.
  rewrite check_humidity_eq; unfold_checks.
  rewrite check_light_eq; unfold_checks.
  rewrite check_moisture_eq; unfold_checks.
  abstract_checks mp lp t h.
  destruct tl, th, hl, hh, ll, lh, ml, mh; reflexivity.
Qed.

(** C1. Every violated check sets the status to "At Risk" and appends its own
    message: as soon as one of the four checks is violated the status is
    "At Risk", the reason is the four fragments in the order temperature,
    humidity, light, moisture (a fragment is empty only for a check in
    range), and when all four are violated none of them is empty.  The
    spec's example (16, 70, 50, 90) is the witness. *)
Theorem updatePlantHealth_violations (g : Globals) :
  temperature_violated g || humidity_violated g
    || light_violated g || moisture_violated g = true ->
  let g' := updatePlantHealth g in
  plantHealthStatus g' = "At Risk"
  /\ plantHealthReason g' =
       temperature_fragment g ++ humidity_fragment g
       ++ light_fragment g ++ moisture_fragment g
  /\ (temperature_violated g = true ->
        temperature_fragment g = "Temperature too low; "
        \/ temperature_fragment g = "Temperature too high; ")
  /\ (humidity_violated g = true ->
        humidity_fragment g = "Humidity too low; "
        \/ humidity_fragment g = "Humidity too high; ")
  /\ (light_violated g = true ->
        light_fragment g = "Light too low; "
        \/ light_fragment g = "Light too high; ")
  /\ (moisture_violated g = true ->
        moisture_fragment g = "Moisture too low"
        \/ moisture_fragment g = "Moisture too high").
Proof.
  intros Hany g'. subst g'. rewrite updatePlantHealth_eq.
  cbn [plantHealthStatus plantHealthReason]. rewrite Hany.
  split; [reflexivity|]. split; [reflexivity|].
  unfold temperature_violated, humidity_violated, light_violated,
    moisture_violated, temperature_fragment, humidity_fragment,
    light_fragment, moisture_fragment.
  repeat split;
    match goal with
    | |- ?a || ?b = true -> _ =>
        destruct a, b; intro Hv; try discriminate Hv; auto
    end.
Qed.

Lemma updatePlantHealth_violations_witness :
  plantHealthStatus (updatePlantHealth example_all_violated) = "At Risk"
  /\ plantHealthReason (updatePlantHealth example_all_violated) =
       "Temperature too low; Humidity too high; Light too low; Moisture too high"
  /\ contains "Temperature too low"
       (plantHealthReason (updatePlantHealth example_all_violated)) = true
  /\ contains "Humidity too high"
       (plantHealthReason (updatePlantHealth example_all_violated)) = true
  /\ contains "Light too low"
       (plantHealthReason (updatePlantHealth example_all_violated)) = true
  /\ contains "Moisture too high"
       (plantHealthReason (updatePlantHealth example_all_violated)) = true.
Proof.
  destruct (updatePlantHealth_violations example_all_violated eq_refl)
    as (Hs & Hr & _).
  split; [exact Hs|].
  rewrite Hr. repeat split; reflexivity.
Defined.

(** C6. After the classifier has run, the reason is empty exactly when the
    status is "Good": the reason is the concatenation of the messages of the
    violated checks, the status is "Good" or "At Risk", and "At Risk" comes
    with a non-empty reason. *)
Theorem reason_empty_iff_Good (g : Globals) :
  let g' := updatePlantHealth g in
  (plantHealthReason g' = "" <-> plantHealthStatus g' = "Good")
  /\ plantHealthReason g' =
       temperature_fragment g ++ humidity_fragment g
       ++ light_fragment g ++ moisture_fragment g
  /\ (plantHealthStatus g' = "Good" \/ plantHealthStatus g' = "At Risk")
  /\ (plantHealthStatus g' = "At Risk" <-> plantHealthReason g' <> "")
  /\ (plantHealthStatus g' = "Good" <->
        temperature_violated g || humidity_violated g
          || light_violated g || moisture_violated g = false).
Proof.
  cbv zeta. rewrite updatePlantHealth_eq.
  cbn [plantHealthStatus plantHealthReason].
  destruct g as [mp lp t h pt st rs]; unfold_checks.
  abstract_checks mp lp t h.
  destruct tl, th, hl, hh, ll, lh, ml, mh; cbn;
    repeat split; intros; try discriminate; try congruence; auto.
Qed.

(** ** One tick of [loop] *)

(** A world just after power-on, with a given radio behaviour. *)
Definition power_on (radio : nat -> Z) : World :=
  mkWorld initial_globals LOW radio 0 [] false [].

Lemma loop_eq (s : Sensors) (w : World) :
  loop s w =
  delay 1000 (display (control_relay (with_globals updatePlantHealth
    (read_dht s (read_light s (read_moisture s w)))))).
Proof. reflexivity. Qed.

Lemma globals_control_relay (w : World) :
  globals (control_relay w) = globals w.
Proof. unfold control_relay. now destruct (F32.ltb _ _). Qed.

Lemma relay_control_relay (w : World) :
  relay (control_relay w) =
  if F32.ltb (moisturePercentage (globals w)) (F32.of_Z 50)
  then LOW else HIGH.
Proof. unfold control_relay. now destruct (F32.ltb _ _). Qed.

Lemma globals_read_light (s : Sensors) (w : World) :
  globals (read_light s w) =
  set_lightPercentage
    (if F32.gtb (light_conversion (readLightLevel s)) (F32.of_Z 100)
     then F32.of_Z 100 else light_conversion (readLightLevel s))
    (globals w).
Proof.
  unfold read_light.
  cbn [with_globals globals set_lightPercentage lightPercentage].
  now destruct (F32.gtb _ _).
Qed.

(** The globals as the classifier finds them in a tick. *)
Definition sampled (s : Sensors) (g : Globals) : Globals :=
  set_humidity (readHumidity s)
    (set_temperature (readTemperature s)
      (set_lightPercentage
        (if F32.gtb (light_conversion (readLightLevel s)) (F32.of_Z 100)
         then F32.of_Z 100 else light_conversion (readLightLevel s))
        (set_moisturePercentage
          (F32.of_Z (map (Int32.wrap (analogRead_MOISTURE_PIN s)) 405 870 100 0))
          g))).

Lemma globals_loop (s : Sensors) (w : World) :
  globals (loop s w) = updatePlantHealth (sampled s (globals w)).
Proof.
  rewrite loop_eq.
  change (globals (delay 1000 ?x)) with (globals x).
  change (globals (display ?x)) with (globals x).
  rewrite globals_control_relay.
  change (globals (with_globals ?f ?x)) with (f (globals x)).
  f_equal. unfold read_dht.
  change (globals (with_globals ?f ?x)) with (f (globals x)).
  change (globals (with_globals ?f ?x)) with (f (globals x)).
  rewrite globals_read_light. reflexivity.
Qed.

Lemma moisture_updatePlantHealth (g : Globals) :
  moisturePercentage (updatePlantHealth g) = moisturePercentage g.
Proof. now rewrite updatePlantHealth_eq. Qed.

Lemma moisture_loop (s : Sensors) (w : World) :
  moisturePercentage (globals (loop s w)) =
  F32.of_Z (map (Int32.wrap (analogRead_MOISTURE_PIN s)) 405 870 100 0).
Proof.
  now rewrite globals_loop, moisture_updatePlantHealth.
Qed.

Lemma relay_loop (s : Sensors) (w : World) :
  relay (loop s w) =
  if F32.ltb (moisturePercentage (globals (loop s w))) (F32.of_Z 50)
  then LOW else HIGH.
Proof.
  rewrite globals_loop, moisture_updatePlantHealth, loop_eq.
  change (relay (delay 1000 ?x)) with (relay x).
  change (relay (display ?x)) with (relay x).
  rewrite relay_control_relay.
  change (globals (with_globals ?f ?x)) with (f (globals x)).
  rewrite moisture_updatePlantHealth.
  unfold read_dht.
  change (globals (with_globals ?f ?x)) with (f (globals x)).
  change (globals (with_globals ?f ?x)) with (f (globals x)).
  rewrite globals_read_light. reflexivity.
Qed.

(** C2. The relay is driven LOW (pump on) exactly when the moisture
    percentage is below 50 and HIGH (pump off) otherwise, in the relay block
    alone and in a whole tick; 49 switches the pump on, 50 switches it
    off, and the level is the one written to the pin last. *)
Theorem pump_on_iff_moisture_below_50 (s : Sensors) (w : World) :
  (relay (control_relay w) = LOW <->
     F32.ltb (moisturePercentage (globals w)) (F32.of_Z 50) = true)
  /\ (relay (control_relay w) = HIGH <->
     F32.ltb (moisturePercentage (globals w)) (F32.of_Z 50) = false)
  /\ (relay (loop s w) = LOW <->
     F32.ltb (moisturePercentage (globals (loop s w))) (F32.of_Z 50) = true)
  /\ (relay (loop s w) = HIGH <->
     F32.ltb (moisturePercentage (globals (loop s w))) (F32.of_Z 50) = false)
  /\ hd_error (log (control_relay w)) =
       Some (Ev_digitalWrite (relay (control_relay w)))
  /\ relay (control_relay
       (with_globals (set_moisturePercentage (F32.of_Z 49)) w)) = LOW
  /\ relay (control_relay
       (with_globals (set_moisturePercentage (F32.of_Z 50)) w)) = HIGH.
Proof.
  rewrite relay_loop, relay_control_relay.
  repeat split;
    try (destruct (F32.ltb _ _); intros; try reflexivity; discriminate).
  unfold control_relay. now destruct (F32.ltb _ _).
Qed.

(** C9. After a tick the relay is LOW exactly when the reason computed in
    that tick contains "Moisture too low". *)
Theorem relay_low_iff_reason_moisture_low (s : Sensors) (w : World) :
  relay (loop s w) = LOW <->
  contains "Moisture too low"
    (plantHealthReason (globals (loop s w))) = true.
Proof.
  rewrite relay_loop, globals_loop, moisture_updatePlantHealth.
  rewrite updatePlantHealth_eq. cbn [plantHealthReason].
  generalize (sampled s (globals w)). intros [mp lp t h pt st rs].
  unfold_checks. abstract_checks mp lp t h.
  destruct tl, th, hl, hh, ll, lh, ml, mh; vm_compute;
    split; intros; try reflexivity; discriminate.
Qed.

(** ** The moisture mapping *)

Lemma wrap_in_range (z : Z) : Int32.in_range z -> Int32.wrap z = z.
Proof.
  unfold Int32.in_range, Int32.wrap. intros H.
  rewrite Z.mod_small; lia.
Qed.

(** On every reading of the 10-bit converter no operation of [map]
    overflows. *)
Lemma map_moisture_eq (r : Z) :
  0 <= r <= 1023 ->
  map (Int32.wrap r) 405 870 100 0 = Z.quot ((r - 405) * -100) 465 + 100.
Proof.
  intros Hr. unfold map, Int32.add, Int32.div, Int32.mul, Int32.sub.
  rewrite (wrap_in_range r) by (unfold Int32.in_range; lia).
  rewrite (wrap_in_range (r - 405)) by (unfold Int32.in_range; lia).
  change (Int32.wrap (0 - 100)) with (-100).
  change (Int32.wrap (870 - 405)) with 465.
  rewrite (wrap_in_range ((r - 405) * -100)) by (unfold Int32.in_range; lia).
  assert (Hq : -133 <= Z.quot ((r - 405) * -100) 465 <= 88).
  { split.
    - apply Z.quot_le_lower_bound; lia.
    - apply Z.quot_le_upper_bound; lia. }
  rewrite (wrap_in_range (Z.quot _ _)) by (unfold Int32.in_range; lia).
  apply wrap_in_range. unfold Int32.in_range; lia.
Qed.

(** Inside the calibration range the quotient is that of two non-negative
    numbers. *)
Lemma map_moisture_calibrated (r : Z) :
  405 <= r <= 870 ->
  map (Int32.wrap r) 405 870 100 0 = 100 - ((r - 405) * 100) / 465.
Proof.
  intros Hr. rewrite map_moisture_eq by lia.
  replace ((r - 405) * -100) with (- ((r - 405) * 100)) by lia.
  rewrite Z.quot_opp_l by lia.
  rewrite Z.quot_div_nonneg by lia. lia.
Qed.

Lemma map_moisture_bounds (r : Z) :
  405 <= r <= 870 -> 0 <= map (Int32.wrap r) 405 870 100 0 <= 100.
Proof.
  intros Hr. rewrite map_moisture_calibrated by lia.
  assert (0 <= ((r - 405) * 100) / 465) by (apply Z.div_pos; lia).
  assert (((r - 405) * 100) / 465 <= 100)
    by (apply Z.div_le_upper_bound; lia).
  lia.
Qed.

Lemma map_moisture_antitone (r1 r2 : Z) :
  405 <= r1 -> r1 <= r2 -> r2 <= 870 ->
  map (Int32.wrap r2) 405 870 100 0 <= map (Int32.wrap r1) 405 870 100 0.
Proof.
  intros H1 H12 H2. rewrite !map_moisture_calibrated by lia.
  assert (((r1 - 405) * 100) / 465 <= ((r2 - 405) * 100) / 465)
    by (apply Z.div_le_mono; lia).
  lia.
Qed.

(** Integers from 0 to 100 convert to [float] exactly and in order; the 101
    values are checked one by one. *)
Definition percent_values : list Z :=
  List.map Z.of_nat (seq 0 101).

Definition percent_pairs_ordered : bool :=
  forallb (fun a =>
    forallb (fun b =>
      implb (Z.leb a b) (F32.leb (F32.of_Z a) (F32.of_Z b)))
      percent_values)
    percent_values.

Lemma in_percent_values (z : Z) : 0 <= z <= 100 -> In z percent_values.
Proof.
  intros Hz. unfold percent_values.
  apply in_map_iff. exists (Z.to_nat z). split; [lia|].
  apply in_seq. lia.
Qed.

Lemma of_Z_percent_monotone (a b : Z) :
  0 <= a -> a <= b -> b <= 100 ->
  F32.leb (F32.of_Z a) (F32.of_Z b) = true.
Proof.
  intros Ha Hab Hb.
  assert (Hall : percent_pairs_ordered = true) by (vm_compute; reflexivity).
  unfold percent_pairs_ordered in Hall.
  rewrite forallb_forall in Hall.
  specialize (Hall a (in_percent_values a ltac:(lia))).
  rewrite forallb_forall in Hall.
  specialize (Hall b (in_percent_values b ltac:(lia))).
  apply Z.leb_le in Hab. rewrite Hab in Hall. exact Hall.
Qed.

(** The moisture percentage is a percentage. *)
Definition is_percentage (m : F32.float) : bool :=
  F32.leb (F32.of_Z 0) m && F32.leb m (F32.of_Z 100).

(** A tick whose moisture reading is [raw]. *)
Definition reading (raw : Z) : Sensors :=
  mkSensors raw (F32.of_Z 700) (F32.of_Z 21) (F32.of_Z 50).

(** C3, as stated: false.  The mapping is not clamped: the readings 0 and
    1023 of the converter give 187 and -32. *)
Lemma moisture_not_clamped :
  moisturePercentage (globals (loop (reading 0) (power_on (fun _ => 3))))
    = F32.of_Z 187
  /\ moisturePercentage (globals (loop (reading 1023) (power_on (fun _ => 3))))
    = F32.of_Z (-32)
  /\ ~ (forall s w,
          is_percentage (moisturePercentage (globals (loop s w))) = true).
Proof.
  split; [reflexivity|]. split; [reflexivity|].
  intros H. specialize (H (reading 0) (power_on (fun _ => 3))).
  vm_compute in H. discriminate H.
Qed.

(** C3, amended. For every raw reading inside the calibration range
    [405, 870] the moisture percentage computed by a tick lies in
    [0, 100]. *)
Theorem moisture_percentage_calibrated (s : Sensors) (w : World) :
  405 <= analogRead_MOISTURE_PIN s <= 870 ->
  is_percentage (moisturePercentage (globals (loop s w))) = true
  /\ 0 <= map (Int32.wrap (analogRead_MOISTURE_PIN s)) 405 870 100 0 <= 100.
Proof.
  intros Hr. rewrite moisture_loop.
  pose proof (map_moisture_bounds _ Hr) as Hb.
  split; [|exact Hb].
  unfold is_percentage. apply andb_true_intro. split.
  - apply of_Z_percent_monotone; lia.
  - apply of_Z_percent_monotone; lia.
Qed.

Lemma moisture_percentage_calibrated_witness :
  is_percentage
    (moisturePercentage
       (globals (loop (reading 600) (power_on (fun _ => 3))))) = true.
Proof.
  apply (moisture_percentage_calibrated (reading 600) (power_on (fun _ => 3))).
  cbn. lia.
Defined.

(** C4. On [405, 870] the moisture percentage does not increase when the
    raw reading increases, it is exactly 100 at 405 and exactly 0 at
    870. *)
Theorem moisture_mapping_antitone (s1 s2 : Sensors) (w1 w2 : World) :
  405 <= analogRead_MOISTURE_PIN s1 ->
  analogRead_MOISTURE_PIN s1 <= analogRead_MOISTURE_PIN s2 ->
  analogRead_MOISTURE_PIN s2 <= 870 ->
  F32.leb (moisturePercentage (globals (loop s2 w2)))
          (moisturePercentage (globals (loop s1 w1))) = true
  /\ map (Int32.wrap (analogRead_MOISTURE_PIN s2)) 405 870 100 0
     <= map (Int32.wrap (analogRead_MOISTURE_PIN s1)) 405 870 100 0
  /\ (analogRead_MOISTURE_PIN s1 = 405 ->
      moisturePercentage (globals (loop s1 w1)) = F32.of_Z 100)
  /\ (analogRead_MOISTURE_PIN s2 = 870 ->
      moisturePercentage (globals (loop s2 w2)) = F32.of_Z 0).
Proof.
  intros H1 H12 H2. rewrite !moisture_loop.
  pose proof (map_moisture_antitone _ _ H1 H12 H2) as Hm.
  pose proof (map_moisture_bounds (analogRead_MOISTURE_PIN s1)
                ltac:(lia)) as Hb1.
  pose proof (map_moisture_bounds (analogRead_MOISTURE_PIN s2)
                ltac:(lia)) as Hb2.
  split; [apply of_Z_percent_monotone; lia|].
  split; [exact Hm|].
  split; intros ->; reflexivity.
Qed.

Lemma moisture_mapping_antitone_witness :
  F32.leb
    (moisturePercentage (globals (loop (reading 870) (power_on (fun _ => 3)))))
    (moisturePercentage (globals (loop (reading 405) (power_on (fun _ => 3)))))
    = true
  /\ moisturePercentage
       (globals (loop (reading 405) (power_on (fun _ => 3)))) = F32.of_Z 100
  /\ moisturePercentage
       (globals (loop (reading 870) (power_on (fun _ => 3)))) = F32.of_Z 0.
Proof.
  destruct (moisture_mapping_antitone (reading 405) (reading 870)
              (power_on (fun _ => 3)) (power_on (fun _ => 3))
              ltac:(cbn; lia) ltac:(cbn; lia) ltac:(cbn; lia))
    as (Hle & _ & H100 & H0).
  split; [exact Hle|].
  split; [exact (H100 eq_refl) | exact (H0 eq_refl)].
Defined.

(** ** The Wi-Fi join of [setup] *)

(** The log after [n] rounds of the retry loop on top of [l]: each round
    waits [WIFI_RETRY_DELAY] and then prints a line. *)
Fixpoint retry_log (n : nat) (l : list event) : list event :=
  match n with
  | O => l
  | S k =>
      Ev_Serial_println "Connecting to WiFi..."
        :: Ev_delay WIFI_RETRY_DELAY :: retry_log k l
  end.

Lemma retry_log_shift (n : nat) (l : list event) :
  retry_log n (Ev_Serial_println "Connecting to WiFi..."
                 :: Ev_delay WIFI_RETRY_DELAY :: l)
  = retry_log (S n) l.
Proof.
  induction n as [|n IH]; [reflexivity|].
  cbn [retry_log] in *. now rewrite IH.
Qed.

(** Everything but the poll counter and the log is out of reach of the
    retry loop. *)
Definition same_machine (w w' : World) : Prop :=
  globals w' = globals w /\ relay w' = relay w
  /\ wifi_status w' = wifi_status w
  /\ routes w' = routes w /\ listening w' = listening w.

Lemma wifi_wait_frame (fuel : nat) :
  forall k w k' w',
    wifi_wait fuel k w = Some (k', w') -> same_machine w w'.
Proof.
  induction fuel as [|fuel IH]; intros k w k' w' H; [discriminate H|].
  cbn [wifi_wait WiFi_status] in H.
  destruct (negb (Z.eqb (wifi_status w (wifi_polls w)) WL_CONNECTED)
            && Z.ltb k MAX_WIFI_RETRIES).
  - apply IH in H. exact H.
  - injection H as _ <-. repeat split.
Qed.

(** With [k] retries behind it the loop stops within [10 - k] further
    rounds, provided the fuel covers the [11 - k] evaluations of its
    condition. *)
Lemma wifi_wait_bounded (fuel : nat) :
  forall k w,
    0 <= k <= 10 ->
    (Z.to_nat (10 - k) < fuel)%nat ->
    exists (n : nat) (w' : World),
      wifi_wait fuel k w = Some (k + Z.of_nat n, w')
      /\ k + Z.of_nat n <= 10
      /\ log w' = retry_log n (log w)
      /\ wifi_polls w' = (wifi_polls w + n + 1)%nat
      /\ (forall i, (i < n)%nat ->
            wifi_status w (wifi_polls w + i)%nat <> WL_CONNECTED)
      /\ (k + Z.of_nat n = 10
          \/ wifi_status w (wifi_polls w + n)%nat = WL_CONNECTED).
Proof.
  induction fuel as [|fuel IH]; intros k w Hk Hfuel; [lia|].
  cbn [wifi_wait WiFi_status].
  destruct (negb (Z.eqb (wifi_status w (wifi_polls w)) WL_CONNECTED)
            && Z.ltb k MAX_WIFI_RETRIES) eqn:Hcond.
  - apply andb_prop in Hcond. destruct Hcond as [Hne Hlt].
    apply negb_true_iff, Z.eqb_neq in Hne.
    apply Z.ltb_lt in Hlt. unfold MAX_WIFI_RETRIES in Hlt.
    assert (Hk1 : Int32.add k 1 = k + 1).
    { unfold Int32.add. apply wrap_in_range. unfold Int32.in_range. lia. }
    rewrite Hk1.
    match goal with
    | |- context [wifi_wait fuel (k + 1) ?w1] =>
        destruct (IH (k + 1) w1 ltac:(lia) ltac:(lia))
          as (n & w' & Hrun & Hle & Hlog & Hpolls & Hfailed & Hstop)
    end.
    cbn [wifi_polls wifi_status delay Serial_println emit]
      in Hpolls, Hfailed, Hstop.
    exists (S n), w'. rewrite Hrun. split; [f_equal; f_equal; lia|].
    split; [lia|]. split; [|split; [|split]].
    + rewrite Hlog. cbn [log delay Serial_println emit].
      apply retry_log_shift.
    + rewrite Hpolls. lia.
    + intros [|i] Hi.
      * now rewrite Nat.add_0_r.
      * replace (wifi_polls w + S i)%nat with (S (wifi_polls w) + i)%nat
          by lia.
        apply Hfailed. lia.
    + destruct Hstop as [Hstop|Hstop]; [left; lia|right].
      replace (wifi_polls w + S n)%nat with (S (wifi_polls w) + n)%nat
        by lia.
      exact Hstop.
  - exists O, (snd (WiFi_status w)). cbn [WiFi_status snd].
    split; [f_equal; f_equal; lia|].
    split; [lia|]. split; [reflexivity|].
    split; [cbn [wifi_polls]; lia|].
    split; [intros i Hi; lia|].
    rewrite Nat.add_0_r.
    apply andb_false_iff in Hcond. destruct Hcond as [Hc|Hc].
    + right. apply negb_false_iff, Z.eqb_eq in Hc. exact Hc.
    + left. apply Z.ltb_ge in Hc. unfold MAX_WIFI_RETRIES in Hc. lia.
Qed.

Section ServerProperties.

Variable String_of_float : F32.float -> string.

(** The two routes of the sketch, in registration order. *)
Definition sketch_routes : list route :=
  [ mkRoute "/readings" HTTP_GET (readings_handler String_of_float);
    mkRoute "/health" HTTP_GET health_handler ].

(** What [setup] logs before it touches the radio, most recent first. *)
Definition boot_log (l : list event) : list event :=
  Ev_WiFi_begin ssid password :: Ev_Serial_begin 9600 :: Ev_delay 2000
    :: Ev_dht_begin :: Ev_lightMeter_begin :: Ev_Wire_begin
    :: Ev_u8g2_setFont :: Ev_u8g2_begin
    :: Ev_digitalWrite HIGH :: Ev_pinMode_OUTPUT :: l.

(** What it prints once the loop is over. *)
Definition outcome_log (connected : bool) (l : list event) : list event :=
  if connected then
    Ev_Serial_println_localIP :: Ev_Serial_print "IP Address: "
      :: Ev_Serial_println "Connected to WiFi" :: l
  else
    Ev_Serial_println "Failed to connect to WiFi after multiple attempts" :: l.

(** C8. The Wi-Fi join is bounded and never blocks the server: whatever the
    radio answers, [setup] returns as soon as the fuel covers eleven
    evaluations of the loop condition; the retry loop runs [attempts <= 10]
    rounds, each a delay of 1000 ms followed by a console line, one round
    per failed poll, and stops at the first poll that finds the station
    connected or after the tenth round; and in both outcomes the two routes are registered and the server is started. *)
Theorem wifi_join_bounded (w0 : World) (fuel : nat) :
  (11 <= fuel)%nat ->
  exists (w : World) (attempts : nat),
    setup String_of_float fuel w0 = Some w
    /\ (attempts <= 10)%nat
    /\ (forall i, (i < attempts)%nat ->
          wifi_status w0 (wifi_polls w0 + i)%nat <> WL_CONNECTED)
    /\ (attempts = 10%nat
        \/ wifi_status w0 (wifi_polls w0 + attempts)%nat = WL_CONNECTED)
    /\ WIFI_RETRY_DELAY = 1000
    /\ log w =
         Ev_server_begin :: Ev_server_on "/health" :: Ev_server_on "/readings"
           :: outcome_log
                (Z.eqb (wifi_status w0 (wifi_polls w0 + attempts + 1)%nat)
                       WL_CONNECTED)
                (retry_log attempts (boot_log (log w0)))
    /\ routes w = (routes w0 ++ sketch_routes)%list
    /\ listening w = true
    /\ globals w = globals w0
    /\ relay w = HIGH.
Proof.
  intros Hfuel. unfold setup.
  match goal with
  | |- context [wifi_wait fuel 0 ?w1] =>
      destruct (wifi_wait_bounded fuel 0 w1 ltac:(lia) ltac:(cbn; lia))
        as (n & w' & Hrun & Hle & Hlog & Hpolls & Hfailed & Hstop);
      pose proof (wifi_wait_frame _ _ _ _ _ Hrun)
        as (Hg & Hr & Hs & Hrt & Hl)
  end.
  rewrite Hrun. cbn [WiFi_status].
  eexists. exists n. split; [reflexivity|].
  cbn [wifi_polls log globals relay routes listening wifi_status
       emit delay digitalWrite_RELAY_PIN]
    in Hlog, Hpolls, Hg, Hr, Hs, Hrt, Hl, Hfailed, Hstop.
  split; [lia|]. split; [exact Hfailed|].
  split; [destruct Hstop; [left; lia | now right]|].
  split; [reflexivity|].
  rewrite Hs, Hpolls.
  destruct (Z.eqb (wifi_status w0 (wifi_polls w0 + n + 1)%nat) WL_CONNECTED);
    cbn; rewrite ?Hlog, ?Hrt, ?Hl, ?Hg, ?Hr; repeat split; rewrite <- app_assoc; reflexivity.
Qed.


(** ** The running program *)

(** A character that stands for itself inside a JSON string. *)
Definition json_plain_char (c : ascii) : bool :=
  let n := nat_of_ascii c in
  (32 <=? n)%nat && negb (n =? 34)%nat && negb (n =? 92)%nat.

Fixpoint json_plain (s : string) : bool :=
  match s with
  | EmptyString => true
  | String c s' => json_plain_char c && json_plain s'
  end.

(** What holds of the world whenever the scheduler hands control to [loop]
    or to a request handler. *)
Record running (w : World) : Prop := mkRunning {
  run_routes : routes w = sketch_routes;
  run_listening : listening w = true;
  run_plantType : plantType (globals w) = "Default Plant";
  run_status : plantHealthStatus (globals w) = "Good"
               \/ plantHealthStatus (globals w) = "At Risk";
  run_reason : json_plain (plantHealthReason (globals w)) = true
}.

Lemma setup_frame (fuel : nat) (w0 w : World) :
  setup String_of_float fuel w0 = Some w ->
  globals w = globals w0
  /\ routes w = (routes w0 ++ sketch_routes)%list
  /\ listening w = true.
Proof.
  unfold setup.
  match goal with
  | |- context [wifi_wait fuel 0 ?w1] =>
      destruct (wifi_wait fuel 0 w1) as [[k w']|] eqn:Hrun; [|discriminate];
      pose proof (wifi_wait_frame _ _ _ _ _ Hrun)
        as (Hg & Hr & Hs & Hrt & Hl)
  end.
  cbn [globals routes emit delay digitalWrite_RELAY_PIN] in Hg, Hrt.
  cbn [WiFi_status]. intros H. injection H as <-.
  destruct (Z.eqb _ WL_CONNECTED); cbn; rewrite Hg, Hrt;
    repeat split; rewrite <- app_assoc; reflexivity.
Qed.

Lemma updatePlantHealth_status (g : Globals) :
  plantHealthStatus (updatePlantHealth g) = "Good"
  \/ plantHealthStatus (updatePlantHealth g) = "At Risk".
Proof.
  rewrite updatePlantHealth_eq. cbn [plantHealthStatus].
  destruct (_ || _); auto.
Qed.

Lemma updatePlantHealth_reason_plain (g : Globals) :
  json_plain (plantHealthReason (updatePlantHealth g)) = true.
Proof.
  rewrite updatePlantHealth_eq. cbn [plantHealthReason].
  destruct g as [mp lp t h pt st rs]. unfold_checks.
  abstract_checks mp lp t h.
  destruct tl, th, hl, hh, ll, lh, ml, mh; reflexivity.
Qed.

Lemma plantType_updatePlantHealth (g : Globals) :
  plantType (updatePlantHealth g) = plantType g.
Proof. now rewrite updatePlantHealth_eq. Qed.

Lemma plantType_loop (s : Sensors) (w : World) :
  plantType (globals (loop s w)) = plantType (globals w).
Proof. now rewrite globals_loop, plantType_updatePlantHealth. Qed.

Lemma routes_loop (s : Sensors) (w : World) :
  routes (loop s w) = routes w /\ listening (loop s w) = listening w.
Proof.
  rewrite loop_eq. unfold control_relay, read_light.
  cbn [with_globals globals].
  destruct (F32.ltb _ _), (F32.gtb _ _); split; reflexivity.
Qed.

(** A handler hands the globals back as it found them. *)
Lemma handlers_read_only (g : Globals) :
  snd (readings_handler String_of_float g) = g /\ snd (health_handler g) = g.
Proof. split; reflexivity. Qed.

Lemma with_globals_id (w : World) :
  with_globals (fun _ => globals w) w = w.
Proof. now destruct w. Qed.

Lemma serve_read_only (m : http_method) (uri : string) (w : World) :
  running w -> snd (serve m uri w) = w.
Proof.
  intros [Hr Hl _ _ _]. unfold serve. rewrite Hl, Hr.
  unfold sketch_routes. cbn [find_route route_uri route_method route_handler].
  destruct (String.eqb "/readings" uri && http_method_eqb HTTP_GET m).
  - cbn [readings_handler snd]. apply with_globals_id.
  - destruct (String.eqb "/health" uri && http_method_eqb HTTP_GET m).
    + cbn [health_handler snd]. apply with_globals_id.
    + reflexivity.
Qed.

Lemma reachable_running (w : World) :
  reachable String_of_float w -> running w.
Proof.
  induction 1 as [fuel w0 w (Hg0 & Hr0 & Hl0) Hsetup | s w _ IH | m uri w _ IH].
  - destruct (setup_frame _ _ _ Hsetup) as (Hg & Hr & Hl).
    rewrite Hr0 in Hr. rewrite Hg0 in Hg.
    constructor; rewrite ?Hg; auto.
  - destruct IH as [Hr Hl Hp _ _].
    destruct (routes_loop s w) as [Hr' Hl'].
    constructor.
    + now rewrite Hr'.
    + now rewrite Hl'.
    + now rewrite plantType_loop.
    + rewrite globals_loop. apply updatePlantHealth_status.
    + rewrite globals_loop. apply updatePlantHealth_reason_plain.
  - now rewrite serve_read_only.
Qed.

(** The body of [/health] and of [/readings], spelled out left to right. *)
Definition health_body (g : Globals) : string :=
  "{" ++ dq ++ "status" ++ dq ++ ":" ++ dq ++ plantHealthStatus g ++ dq
  ++ "," ++ dq ++ "reason" ++ dq ++ ":" ++ dq ++ plantHealthReason g ++ dq
  ++ "}".

Definition readings_body (g : Globals) : string :=
  "{" ++ dq ++ "moisture" ++ dq ++ ":"
  ++ String_of_float (moisturePercentage g) ++ ","
  ++ dq ++ "light" ++ dq ++ ":" ++ String_of_float (lightPercentage g) ++ ","
  ++ dq ++ "temperature" ++ dq ++ ":" ++ String_of_float (temperature g) ++ ","
  ++ dq ++ "humidity" ++ dq ++ ":" ++ String_of_float (humidity g)
  ++ "}".

Lemma health_handler_eq (g : Globals) :
  fst (health_handler g) = mkResponse 200 "application/json" (health_body g).
Proof.
  unfold health_handler, health_body. cbn [fst]. f_equal.
  repeat rewrite append_assoc. reflexivity.
Qed.

Lemma readings_handler_eq (g : Globals) :
  fst (readings_handler String_of_float g)
  = mkResponse 200 "application/json" (readings_body g).
Proof.
  unfold readings_handler, readings_body. cbn [fst]. f_equal.
  repeat rewrite append_assoc. reflexivity.
Qed.

(** C10. [plantType] holds "Default Plant" in every state the running
    program goes through, and still does after the classifier, after a tick
    of [loop] and after either request handler or any request served. *)
Theorem plantType_never_modified (w : World) :
  reachable String_of_float w ->
  plantType (globals w) = "Default Plant"
  /\ plantType (updatePlantHealth (globals w)) = "Default Plant"
  /\ (forall s, plantType (globals (loop s w)) = "Default Plant")
  /\ plantType (snd (readings_handler String_of_float (globals w)))
     = "Default Plant"
  /\ plantType (snd (health_handler (globals w))) = "Default Plant"
  /\ (forall m uri, plantType (globals (snd (serve m uri w)))
                    = "Default Plant").
Proof.
  intros Hreach. pose proof (reachable_running w Hreach) as Hrun.
  pose proof (run_plantType w Hrun) as Hp.
  split; [exact Hp|].
  split; [now rewrite plantType_updatePlantHealth|].
  split; [intros s; now rewrite plantType_loop|].
  split; [exact Hp|]. split; [exact Hp|].
  intros m uri. now rewrite serve_read_only.
Qed.

End ServerProperties.

(** ** A run of the program *)

(** A rendering of numbers to run the handlers with: the sketch's own text
    does not depend on it. *)
Definition fixed_point_text : F32.float -> string := fun _ => "0.00".

(** A radio that never gets a connection, and one that has it at once. *)
Definition radio_idle : nat -> Z := fun _ => 0.

Definition after_setup (radio : nat -> Z) : World :=
  match setup fixed_point_text 11 (power_on radio) with
  | Some w => w
  | None => power_on radio
  end.

(** Boot without a connection, then one tick on dry soil. *)
Definition first_tick : World := loop (reading 700) (after_setup radio_idle).

Lemma first_tick_reachable : reachable fixed_point_text first_tick.
Proof.
  apply reach_loop.
  apply (reach_setup fixed_point_text 11%nat (power_on radio_idle)).
  - repeat split.
  - vm_compute. reflexivity.
Qed.

Lemma wifi_join_bounded_witness :
  exists (w : World) (attempts : nat),
    setup fixed_point_text 11 (power_on radio_idle) = Some w
    /\ (attempts <= 10)%nat
    /\ (forall i, (i < attempts)%nat -> radio_idle (0 + i)%nat <> WL_CONNECTED)
    /\ (attempts = 10%nat \/ radio_idle (0 + attempts)%nat = WL_CONNECTED)
    /\ WIFI_RETRY_DELAY = 1000
    /\ log w =
         Ev_server_begin :: Ev_server_on "/health" :: Ev_server_on "/readings"
           :: outcome_log
                (Z.eqb (radio_idle (0 + attempts + 1)%nat) WL_CONNECTED)
                (retry_log attempts (boot_log []))
    /\ routes w = ([] ++ sketch_routes fixed_point_text)%list
    /\ listening w = true
    /\ globals w = initial_globals
    /\ relay w = HIGH.
Proof.
  exact (wifi_join_bounded fixed_point_text (power_on radio_idle) 11
           (le_n 11)).
Defined.

Lemma plantType_never_modified_witness :
  plantType (globals first_tick) = "Default Plant"
  /\ plantType (globals (loop (reading 405) first_tick)) = "Default Plant"
  /\ plantType (globals (snd (serve HTTP_GET "/health" first_tick)))
     = "Default Plant".
Proof.
  destruct (plantType_never_modified fixed_point_text first_tick
              first_tick_reachable) as (H0 & _ & Hl & _ & _ & Hs).
  split; [exact H0|]. split; [apply Hl | apply Hs].
Defined.

(** * Further properties of the sketch *)

(** ** Comparisons of floats *)

Lemma SFcompare_swap (a b : spec_float) :
  SFcompare b a = option_map CompOpp (SFcompare a b).
Proof.
  destruct a as [sa|sa| |sa ma ea], b as [sb|sb| |sb mb eb];
    try destruct sa; try destruct sb; try reflexivity;
    cbn [SFcompare option_map];
    rewrite (Z.compare_antisym ea eb);
    destruct (Z.compare ea eb); cbn [CompOpp]; try reflexivity;
    generalize (Pos.compare_cont_antisym ma mb Eq); cbn [CompOpp];
    change Pos.compare_cont with PosDef.Pos.compare_cont;
    destruct (PosDef.Pos.compare_cont Eq ma mb),
             (PosDef.Pos.compare_cont Eq mb ma);
    cbn [CompOpp]; congruence.
Qed.

Definition is_nan (x : spec_float) : bool :=
  match x with S754_nan => true | _ => false end.

Lemma SFcompare_None (a b : spec_float) :
  SFcompare a b = None <-> is_nan a || is_nan b = true.
Proof.
  destruct a as [sa|sa| |sa ma ea], b as [sb|sb| |sb mb eb];
    cbn; split; intros H; try discriminate H; reflexivity.
Qed.

(** [t < c] fails exactly when [t] is NaN or [c <= t]. *)
Lemma ltb_false_iff (t c : spec_float) :
  is_nan c = false ->
  (F32.ltb t c = false <-> is_nan t = true \/ F32.leb c t = true).
Proof.
  intros Hc. unfold F32.ltb, F32.leb, SFltb, SFleb.
  rewrite (SFcompare_swap t c).
  destruct (SFcompare t c) as [[]|] eqn:E; cbn; split; intros H;
    try reflexivity; try discriminate H; try (right; reflexivity).
  - destruct H as [H|H]; [|discriminate H].
    assert (HN : SFcompare t c = None)
      by (apply SFcompare_None; now rewrite H).
    congruence.
  - left. apply SFcompare_None in E. rewrite Hc, orb_false_r in E. exact E.
Qed.

Lemma gtb_false_iff (t c : spec_float) :
  is_nan c = false ->
  (F32.gtb t c = false <-> is_nan t = true \/ F32.leb t c = true).
Proof.
  intros Hc. unfold F32.gtb, F32.ltb, F32.leb, SFltb, SFleb.
  rewrite (SFcompare_swap t c).
  destruct (SFcompare t c) as [[]|] eqn:E; cbn; split; intros H;
    try reflexivity; try discriminate H; try (right; reflexivity).
  - destruct H as [H|H]; [|discriminate H].
    assert (HN : SFcompare t c = None)
      by (apply SFcompare_None; now rewrite H).
    congruence.
  - left. apply SFcompare_None in E. rewrite Hc, orb_false_r in E. exact E.
Qed.

(** [lo <= x <= hi], bounds included. *)
Definition within (lo hi : Z) (x : F32.float) : bool :=
  F32.leb (F32.of_Z lo) x && F32.leb x (F32.of_Z hi).

Lemma in_range_iff (lo hi : Z) (x : F32.float) :
  is_nan (F32.of_Z lo) = false -> is_nan (F32.of_Z hi) = false ->
  (F32.ltb x (F32.of_Z lo) || F32.gtb x (F32.of_Z hi) = false
   <-> is_nan x || within lo hi x = true).
Proof.
  intros Hlo Hhi. rewrite orb_false_iff, orb_true_iff.
  rewrite (ltb_false_iff x _ Hlo), (gtb_false_iff x _ Hhi).
  unfold within. rewrite andb_true_iff. tauto.
Qed.

(** X1. The status is "Good" exactly when every reading is NaN or inside
    its closed range: 18..24 for the temperature, 40..65 for the humidity,
    60..80 for the light and 50..80 for the moisture, bounds included.  A
    reading the driver reports as NaN violates nothing. *)
Theorem status_Good_iff_in_ranges (g : Globals) :
  plantHealthStatus (updatePlantHealth g) = "Good" <->
  (is_nan (temperature g) || within 18 24 (temperature g))
  && (is_nan (humidity g) || within 40 65 (humidity g))
  && (is_nan (lightPercentage g) || within 60 80 (lightPercentage g))
  && (is_nan (moisturePercentage g) || within 50 80 (moisturePercentage g))
  = true.
Proof.
  rewrite updatePlantHealth_eq. cbn [plantHealthStatus].
  rewrite !andb_true_iff.
  rewrite <- (in_range_iff 18 24), <- (in_range_iff 40 65),
          <- (in_range_iff 60 80), <- (in_range_iff 50 80) by reflexivity.
  unfold temperature_violated, humidity_violated, light_violated,
    moisture_violated, temperature_low, temperature_high, humidity_low,
    humidity_high, light_low, light_high, moisture_low, moisture_high.
  destruct (F32.ltb (temperature g) _ || F32.gtb (temperature g) _),
           (F32.ltb (humidity g) _ || F32.gtb (humidity g) _),
           (F32.ltb (lightPercentage g) _ || F32.gtb (lightPercentage g) _),
           (F32.ltb (moisturePercentage g) _
            || F32.gtb (moisturePercentage g) _);
    cbn; split; intros H; try discriminate H; try tauto;
    decompose [and] H; discriminate.
Qed.

(** X2. The classifier has no memory and touches no reading: the status
    and reason it finds do not influence the result, running it twice
    changes nothing, and the four readings come out as they went in. *)
Theorem updatePlantHealth_stateless (g : Globals) (st rs : string) :
  updatePlantHealth (set_plantHealthReason rs (set_plantHealthStatus st g))
    = updatePlantHealth g
  /\ updatePlantHealth (updatePlantHealth g) = updatePlantHealth g
  /\ moisturePercentage (updatePlantHealth g) = moisturePercentage g
  /\ lightPercentage (updatePlantHealth g) = lightPercentage g
  /\ temperature (updatePlantHealth g) = temperature g
  /\ humidity (updatePlantHealth g) = humidity g.
Proof.
  split; [|split].
  - rewrite !updatePlantHealth_eq. reflexivity.
  - rewrite (updatePlantHealth_eq (updatePlantHealth g)).
    rewrite updatePlantHealth_eq. reflexivity.
  - rewrite updatePlantHealth_eq. repeat split.
Qed.

(** ** Signs through the light conversion *)

(** [x] is not NaN and carries the sign bit [s]. *)
Definition signed_as (s : bool) (x : spec_float) : bool :=
  match x with
  | S754_zero s' | S754_infinity s' | S754_finite s' _ _ => Bool.eqb s' s
  | S754_nan => false
  end.

Lemma shr_1_nonneg (mrs : shr_record) :
  0 <= shr_m mrs -> 0 <= shr_m (shr_1 mrs).
Proof.
  destruct mrs as [m r s]. destruct m as [|[p|p|]|[p|p|]]; cbn; lia.
Qed.

Lemma iter_shr_1_nonneg (p : positive) :
  forall mrs, 0 <= shr_m mrs -> 0 <= shr_m (iter_pos shr_1 p mrs).
Proof.
  induction p as [p IH|p IH|]; intros mrs H; cbn [iter_pos].
  - apply IH, IH, shr_1_nonneg, H.
  - apply IH, IH, H.
  - apply shr_1_nonneg, H.
Qed.

Lemma shr_fexp_nonneg (prec emax m e : Z) (l : location) :
  0 <= m -> 0 <= shr_m (fst (shr_fexp prec emax m e l)).
Proof.
  intros Hm. unfold shr_fexp, shr.
  assert (H0 : 0 <= shr_m (shr_record_of_loc m l))
    by (destruct l as [|[]]; exact Hm).
  destruct (fexp prec emax (Zdigits2 m + e) - e); cbn [fst]; auto.
  now apply iter_shr_1_nonneg.
Qed.

Lemma round_nearest_even_nonneg (m : Z) (l : location) :
  0 <= m -> 0 <= round_nearest_even m l.
Proof.
  intros Hm. destruct l as [|[]]; cbn [round_nearest_even]; try lia.
  destruct (Z.even m); lia.
Qed.

Lemma binary_round_aux_signed (prec emax : Z) (sx : bool) (mx ex : Z)
  (lx : location) :
  0 <= mx -> signed_as sx (binary_round_aux prec emax sx mx ex lx) = true.
Proof.
  intros Hm. unfold binary_round_aux.
  pose proof (shr_fexp_nonneg prec emax mx ex lx Hm) as H1.
  destruct (shr_fexp prec emax mx ex lx) as [mrs' e']. cbn [fst] in H1.
  pose proof (shr_fexp_nonneg prec emax _ e' loc_Exact
                (round_nearest_even_nonneg _ (loc_of_shr_record mrs') H1))
    as H2.
  destruct (shr_fexp prec emax _ e' loc_Exact) as [mrs'' e''].
  cbn [fst] in H2.
  destruct (shr_m mrs'') as [|m|m]; [| |lia].
  - cbn. apply eqb_reflx.
  - destruct (Z.leb e'' (emax - prec)); cbn; apply eqb_reflx.
Qed.

Lemma binary_round_signed (prec emax : Z) (sx : bool) (mx : positive) (ex : Z) :
  signed_as sx (binary_round prec emax sx mx ex) = true.
Proof.
  unfold binary_round. destruct (shl_align mx ex _) as [mz ez].
  apply binary_round_aux_signed. lia.
Qed.

Lemma of_float_signed (s : bool) (x : F32.float) :
  signed_as s x = true -> signed_as s (F64.of_float x) = true.
Proof.
  destruct x as [s'|s'| |s' m e]; cbn [F64.of_float]; auto.
  cbn [signed_as]. intros H. apply eqb_prop in H. subst s'.
  destruct s; cbn [F64.signed_mantissa binary_normalize];
    apply binary_round_signed.
Qed.

Lemma to_float_signed (s : bool) (x : F64.double) :
  signed_as s x = true -> signed_as s (F64.to_float x) = true.
Proof.
  destruct x as [s'|s'| |s' m e]; cbn [F64.to_float]; auto.
  cbn [signed_as]. intros H. apply eqb_prop in H. subst s'.
  destruct s; cbn [F64.signed_mantissa binary_normalize];
    apply binary_round_signed.
Qed.

(** Dividing by a positive finite number keeps the sign. *)
Lemma div_positive_signed (s : bool) (x : F64.double) (my : positive) (ey : Z) :
  signed_as s x = true ->
  signed_as s (F64.div x (S754_finite false my ey)) = true.
Proof.
  destruct x as [s'|s'| |s' m e]; cbn [signed_as]; intros H;
    try discriminate H; apply eqb_prop in H; subst s';
    unfold F64.div; cbn [SFdiv]; rewrite ?xorb_false_r;
    try (cbn [signed_as]; apply eqb_reflx).
  unfold SFdiv_core_binary.
  set (sh := _ - _ - _).
  set (m' := match sh with Z0 => Zpos m | Zpos _ => Z.shiftl (Zpos m) sh
                       | Zneg _ => 0 end).
  assert (Hm' : 0 <= m').
  { subst m'. destruct sh; try lia. apply Z.shiftl_nonneg. lia. }
  pose proof (Z.div_pos m' (Zpos my) Hm' ltac:(lia)) as Hq.
  unfold Z.div in Hq.
  destruct (Z.div_eucl m' (Zpos my)) as [q r].
  apply binary_round_aux_signed. exact Hq.
Qed.

(** Multiplying by a positive finite number keeps the sign. *)
Lemma mul_positive_signed (s : bool) (x : F64.double) (my : positive) (ey : Z) :
  signed_as s x = true ->
  signed_as s (F64.mul x (S754_finite false my ey)) = true.
Proof.
  destruct x as [s'|s'| |s' m e]; cbn [signed_as]; intros H;
    try discriminate H; apply eqb_prop in H; subst s';
    unfold F64.mul; cbn [SFmul]; rewrite ?xorb_false_r;
    try (cbn [signed_as]; apply eqb_reflx).
  apply binary_round_aux_signed. lia.
Qed.

Lemma light_conversion_signed (s : bool) (lux : F32.float) :
  signed_as s lux = true -> signed_as s (light_conversion lux) = true.
Proof.
  intros H. unfold light_conversion.
  apply to_float_signed.
  change (F64.of_Z 100) with (S754_finite false 7036874417766400 (-46)).
  apply mul_positive_signed.
  change (F64.of_Z 1000) with (S754_finite false 8796093022208000 (-43)).
  apply div_positive_signed.
  now apply of_float_signed.
Qed.

Lemma light_conversion_nan (lux : F32.float) :
  is_nan (light_conversion lux) = is_nan lux.
Proof.
  destruct lux as [s|s| |s m e]; try reflexivity;
    match goal with
    | |- is_nan (light_conversion ?x) = _ =>
        pose proof (light_conversion_signed s x (eqb_reflx s)) as H;
        destruct (light_conversion x); try discriminate H; reflexivity
    end.
Qed.

Lemma light_loop (s : Sensors) (w : World) :
  lightPercentage (globals (loop s w)) =
  if F32.gtb (light_conversion (readLightLevel s)) (F32.of_Z 100)
  then F32.of_Z 100 else light_conversion (readLightLevel s).
Proof. rewrite globals_loop, updatePlantHealth_eq. reflexivity. Qed.

Lemma signed_not_nan (s : bool) (x : spec_float) :
  signed_as s x = true -> is_nan x = false.
Proof. destruct x; cbn; intros H; try reflexivity; discriminate H. Qed.

(** X3. After a tick the light percentage is never above 100; it is NaN
    exactly when the sensor returned NaN, and at most 100 otherwise. *)
Theorem light_percentage_clamped (s : Sensors) (w : World) :
  let lp := lightPercentage (globals (loop s w)) in
  F32.gtb lp (F32.of_Z 100) = false
  /\ is_nan lp = is_nan (readLightLevel s)
  /\ (is_nan (readLightLevel s) = false ->
      F32.leb lp (F32.of_Z 100) = true).
Proof.
  cbv zeta. rewrite light_loop.
  assert (Hgt : F32.gtb
            (if F32.gtb (light_conversion (readLightLevel s)) (F32.of_Z 100)
             then F32.of_Z 100 else light_conversion (readLightLevel s))
            (F32.of_Z 100) = false).
  { destruct (F32.gtb (light_conversion _) _) eqn:E; [reflexivity | exact E]. }
  assert (Hnan : is_nan
            (if F32.gtb (light_conversion (readLightLevel s)) (F32.of_Z 100)
             then F32.of_Z 100 else light_conversion (readLightLevel s))
            = is_nan (readLightLevel s)).
  { destruct (F32.gtb (light_conversion _) _) eqn:E.
    - rewrite <- (light_conversion_nan (readLightLevel s)).
      destruct (light_conversion (readLightLevel s)); try reflexivity.
      discriminate E.
    - apply light_conversion_nan. }
  split; [exact Hgt|]. split; [exact Hnan|].
  intros Hn. apply (gtb_false_iff _ (F32.of_Z 100) eq_refl) in Hgt.
  destruct Hgt as [Hgt|Hgt]; [|exact Hgt].
  rewrite Hn in Hnan.
  discriminate (eq_trans (eq_sym Hgt) Hnan).
Qed.

Lemma below_zero_signed (x : F32.float) :
  F32.ltb x (F32.of_Z 0) = true -> signed_as true x = true.
Proof.
  destruct x as [s|s| |s m e]; cbn; try discriminate;
    destruct s; try discriminate; reflexivity.
Qed.

Lemma negative_below_60 (x : F32.float) :
  signed_as true x = true ->
  F32.ltb x (F32.of_Z 60) = true /\ F32.gtb x (F32.of_Z 100) = false.
Proof.
  destruct x as [s|s| |s m e]; cbn [signed_as]; intros H;
    try discriminate H; apply eqb_prop in H; subst s; split; reflexivity.
Qed.

(** X4. There is no lower clamp: a reading below zero (the light sensor's
    driver reports errors as negative numbers) is stored as converted, with
    its sign, and the tick ends "At Risk" with "Light too low" in the
    reason. *)
Theorem negative_light_is_too_low (s : Sensors) (w : World) :
  F32.ltb (readLightLevel s) (F32.of_Z 0) = true ->
  lightPercentage (globals (loop s w)) = light_conversion (readLightLevel s)
  /\ signed_as true (lightPercentage (globals (loop s w))) = true
  /\ plantHealthStatus (globals (loop s w)) = "At Risk"
  /\ contains "Light too low" (plantHealthReason (globals (loop s w))) = true.
Proof.
  intros Hneg. apply below_zero_signed in Hneg.
  pose proof (light_conversion_signed true _ Hneg) as Hconv.
  destruct (negative_below_60 _ Hconv) as [Hlow Hngt].
  assert (Hlp : lightPercentage (globals (loop s w))
                = light_conversion (readLightLevel s))
    by (now rewrite light_loop, Hngt).
  split; [exact Hlp|]. split; [now rewrite Hlp|].
  rewrite <- Hlp in Hlow. clear Hlp Hconv Hngt Hneg.
  revert Hlow. rewrite globals_loop.
  replace (lightPercentage (updatePlantHealth (sampled s (globals w))))
    with (lightPercentage (sampled s (globals w)))
    by (now rewrite updatePlantHealth_eq).
  rewrite updatePlantHealth_eq. cbn [plantHealthStatus plantHealthReason].
  generalize (sampled s (globals w)). intros [mp lp t h pt st rs].
  unfold_checks. cbn [lightPercentage].
  abstract_checks mp lp t h. intros ->.
  destruct tl, th, hl, hh, lh, ml, mh; split; reflexivity.
Qed.

Lemma negative_light_is_too_low_witness :
  plantHealthStatus
    (globals (loop (mkSensors 600 (F32.of_Z (-2)) (F32.of_Z 21) (F32.of_Z 50))
                   (power_on (fun _ => 3)))) = "At Risk"
  /\ contains "Light too low"
       (plantHealthReason
          (globals (loop (mkSensors 600 (F32.of_Z (-2)) (F32.of_Z 21)
                                    (F32.of_Z 50))
                         (power_on (fun _ => 3))))) = true.
Proof.
  destruct (negative_light_is_too_low
              (mkSensors 600 (F32.of_Z (-2)) (F32.of_Z 21) (F32.of_Z 50))
              (power_on (fun _ => 3)) eq_refl) as (_ & _ & Hs & Hc).
  split; [exact Hs | exact Hc].
Defined.

(** ** Ticks do not remember *)

Lemma loop_same_tick (s : Sensors) (w1 w2 : World) :
  plantType (globals w1) = plantType (globals w2) ->
  globals (loop s w1) = globals (loop s w2)
  /\ relay (loop s w1) = relay (loop s w2).
Proof.
  intros Hp. split.
  - rewrite !globals_loop, !updatePlantHealth_eq.
    unfold sampled, set_humidity, set_temperature, set_lightPercentage,
      set_moisturePercentage.
    unfold_checks. now rewrite Hp.
  - rewrite !relay_loop, !moisture_loop. reflexivity.
Qed.

(** ** Sequences of ticks *)

(** The core calls [loop] again and again: the ticks of a run, oldest
    first. *)
Fixpoint ticks (ss : list Sensors) (w : World) : World :=
  match ss with
  | [] => w
  | s :: ss' => ticks ss' (loop s w)
  end.

(** Milliseconds spent in [delay], and the levels written to the relay
    pin (latest first), as a log records them. *)
Fixpoint total_delay (l : list event) : Z :=
  match l with
  | [] => 0
  | Ev_delay ms :: l' => ms + total_delay l'
  | _ :: l' => total_delay l'
  end.

Fixpoint pin_writes (l : list event) : list pin_level :=
  match l with
  | [] => []
  | Ev_digitalWrite level :: l' => level :: pin_writes l'
  | _ :: l' => pin_writes l'
  end.

Lemma log_control_relay (w : World) :
  log (control_relay w) = Ev_digitalWrite (relay (control_relay w)) :: log w.
Proof. unfold control_relay. now destruct (F32.ltb _ _). Qed.

Lemma log_read_light (s : Sensors) (w : World) :
  log (read_light s w) = log w.
Proof.
  unfold read_light. cbn [with_globals globals].
  now destruct (F32.gtb _ _).
Qed.

Lemma log_loop (s : Sensors) (w : World) :
  log (loop s w) =
  Ev_delay 1000
    :: Ev_u8g2_page (moisturePercentage (globals (loop s w)))
                    (lightPercentage (globals (loop s w)))
                    (temperature (globals (loop s w)))
                    (humidity (globals (loop s w)))
    :: Ev_digitalWrite (relay (loop s w)) :: log w.
Proof.
  rewrite loop_eq.
  remember (with_globals updatePlantHealth
              (read_dht s (read_light s (read_moisture s w)))) as x eqn:Hx.
  assert (Hlog : log x = log w).
  { subst x. change (log (with_globals ?f ?y)) with (log y).
    unfold read_dht. change (log (with_globals ?f ?y)) with (log y).
    change (log (with_globals ?f ?y)) with (log y).
    rewrite log_read_light. reflexivity. }
  clear Hx.
  remember (control_relay x) as y eqn:Hy.
  change (globals (delay 1000 (display y))) with (globals y).
  change (relay (delay 1000 (display y))) with (relay y).
  change (log (delay 1000 (display y)))
    with (Ev_delay 1000
            :: Ev_u8g2_page (moisturePercentage (globals y))
                 (lightPercentage (globals y)) (temperature (globals y))
                 (humidity (globals y)) :: log y).
  subst y. now rewrite log_control_relay, Hlog.
Qed.

Lemma ticks_app (a b : list Sensors) (w : World) :
  ticks (a ++ b) w = ticks b (ticks a w).
Proof.
  revert w. induction a as [|s a IH]; intros w; [reflexivity|].
  cbn [ticks app]. apply IH.
Qed.

Lemma ticks_frame (ss : list Sensors) :
  forall w,
    plantType (globals (ticks ss w)) = plantType (globals w)
    /\ routes (ticks ss w) = routes w
    /\ listening (ticks ss w) = listening w
    /\ total_delay (log (ticks ss w))
       = total_delay (log w) + 1000 * Z.of_nat (List.length ss)
    /\ List.length (pin_writes (log (ticks ss w)))
       = (List.length (pin_writes (log w)) + List.length ss)%nat.
Proof.
  induction ss as [|s ss IH]; intros w.
  - cbn [ticks List.length]. repeat split; lia.
  - cbn [ticks]. destruct (IH (loop s w)) as (Hp & Hr & Hl & Hd & Hw).
    destruct (routes_loop s w) as [Hr' Hl'].
    rewrite Hp, Hr, Hl, Hd, Hw, plantType_loop, Hr', Hl', log_loop.
    cbn [total_delay pin_writes List.length]. repeat split; lia.
Qed.

Lemma relay_written_last (s : Sensors) (w : World) :
  hd_error (pin_writes (log (loop s w))) = Some (relay (loop s w)).
Proof. now rewrite log_loop. Qed.


(** X6. After any number of ticks the globals and the relay level are
    those of the last tick alone; the level in the latch is the one written
    last; every tick blocks for 1000 ms and writes the relay pin once; the
    routes stay as they were. *)
Theorem ticks_keep_last_only (ss : list Sensors) (s : Sensors) (w : World) :
  let w' := ticks (ss ++ [s]) w in
  globals w' = globals (loop s w)
  /\ relay w' = relay (loop s w)
  /\ hd_error (pin_writes (log w')) = Some (relay w')
  /\ total_delay (log w')
     = total_delay (log w) + 1000 * (Z.of_nat (List.length ss) + 1)
  /\ List.length (pin_writes (log w'))
     = (List.length (pin_writes (log w)) + List.length ss + 1)%nat
  /\ routes w' = routes w /\ listening w' = listening w.
Proof.
  cbv zeta. rewrite ticks_app. cbn [ticks].
  destruct (ticks_frame ss w) as (Hp & Hr & Hl & Hd & Hw).
  destruct (loop_same_tick s (ticks ss w) w Hp) as [Hg Hrel].
  destruct (routes_loop s (ticks ss w)) as [Hr' Hl'].
  rewrite Hg, Hrel, Hr', Hl', Hr, Hl.
  split; [reflexivity|]. split; [reflexivity|].
  split; [rewrite <- Hrel; apply relay_written_last|].
  rewrite log_loop. cbn [total_delay pin_writes List.length].
  rewrite Hd, Hw. repeat split; lia.
Qed.

(** ** Boot *)

Lemma total_delay_retry_log (n : nat) (l : list event) :
  total_delay (retry_log n l) = 1000 * Z.of_nat n + total_delay l.
Proof.
  induction n as [|n IH]; [cbn [retry_log]; lia|].
  cbn [retry_log total_delay]. unfold WIFI_RETRY_DELAY. lia.
Qed.

Lemma pin_writes_retry_log (n : nat) (l : list event) :
  pin_writes (retry_log n l) = pin_writes l.
Proof. induction n as [|n IH]; [reflexivity | exact IH]. Qed.

(** X7. [setup] blocks in [delay] for 2000 ms plus 1000 ms per failed
    poll, 12 s at most; it polls the radio once per retry round and twice
    more; and the only level it writes to the relay pin is HIGH. *)
Theorem setup_boot_time (String_of_float : F32.float -> string)
  (w0 : World) (fuel : nat) :
  (11 <= fuel)%nat ->
  exists (w : World) (attempts : nat),
    setup String_of_float fuel w0 = Some w
    /\ (attempts <= 10)%nat
    /\ total_delay (log w)
       = total_delay (log w0) + 2000 + 1000 * Z.of_nat attempts
    /\ total_delay (log w) <= total_delay (log w0) + 12000
    /\ wifi_polls w = (wifi_polls w0 + attempts + 2)%nat
    /\ pin_writes (log w) = HIGH :: pin_writes (log w0).
Proof.
  intros Hfuel. unfold setup.
  match goal with
  | |- context [wifi_wait fuel 0 ?w1] =>
      destruct (wifi_wait_bounded fuel 0 w1 ltac:(lia) ltac:(cbn; lia))
        as (n & w' & Hrun & Hle & Hlog & Hpolls & _ & _)
  end.
  rewrite Hrun. cbn [WiFi_status].
  cbn [wifi_polls log emit delay digitalWrite_RELAY_PIN] in Hlog, Hpolls.
  eexists. exists n. split; [reflexivity|]. split; [lia|].
  assert (Hd : total_delay (log w')
               = total_delay (log w0) + 2000 + 1000 * Z.of_nat n).
  { rewrite Hlog, total_delay_retry_log. cbn [total_delay]. lia. }
  assert (Hw : pin_writes (log w') = HIGH :: pin_writes (log w0)).
  { rewrite Hlog, pin_writes_retry_log. reflexivity. }
  destruct (Z.eqb _ WL_CONNECTED);
    cbn [setupServerRoutes server_begin server_on Serial_println Serial_print
         emit log wifi_polls total_delay pin_writes];
    rewrite Hd, Hw, Hpolls; repeat split; lia.
Qed.

Lemma setup_boot_time_witness :
  exists (w : World) (attempts : nat),
    setup (fun _ => "0.00") 11 (power_on (fun _ => 0)) = Some w
    /\ (attempts <= 10)%nat
    /\ total_delay (log w) = 0 + 2000 + 1000 * Z.of_nat attempts
    /\ total_delay (log w) <= 0 + 12000
    /\ wifi_polls w = (0 + attempts + 2)%nat
    /\ pin_writes (log w) = HIGH :: [].
Proof.
  exact (setup_boot_time (fun _ => "0.00") (power_on (fun _ => 0)) 11
           (le_n 11)).
Defined.

(** ** Reading the /health body back *)

Definition quote : ascii := ascii_of_nat 34.

(** The characters of a string literal up to its closing quote, and what
    follows it.  Escapes are not accepted. *)
Fixpoint read_string_body (s : string) : option (string * string) :=
  match s with
  | EmptyString => None
  | String c s' =>
      if Ascii.eqb c quote then Some (EmptyString, s')
      else if json_plain_char c then
        match read_string_body s' with
        | Some (v, rest) => Some (String c v, rest)
        | None => None
        end
      else None
  end.

Definition read_string (s : string) : option (string * string) :=
  match s with
  | String c s' => if Ascii.eqb c quote then read_string_body s' else None
  | EmptyString => None
  end.

(** One ["key":"value"] pair. *)
Definition read_member (s : string) : option ((string * string) * string) :=
  match read_string s with
  | Some (k, String ":" r) =>
      match read_string r with
      | Some (v, rest) => Some ((k, v), rest)
      | None => None
      end
  | _ => None
  end.

Fixpoint read_members (fuel : nat) (s : string)
  : option (list (string * string)) :=
  match fuel with
  | O => None
  | S fuel' =>
      match read_member s with
      | Some (kv, String "}" EmptyString) => Some [kv]
      | Some (kv, String "," rest) =>
          option_map (cons kv) (read_members fuel' rest)
      | _ => None
      end
  end.

(** A JSON object whose members are all strings, without white space. *)
Definition decode_object (s : string) : option (list (string * string)) :=
  match s with
  | String "{" r => read_members (String.length s) r
  | _ => None
  end.

Lemma read_string_body_plain (v rest : string) :
  json_plain v = true ->
  read_string_body (v ++ String quote rest) = Some (v, rest).
Proof.
  induction v as [|c v IH]; cbn [json_plain append read_string_body].
  - intros _. now rewrite Ascii.eqb_refl.
  - intros H. apply andb_prop in H. destruct H as [Hc Hv].
    rewrite Hc, (IH Hv).
    destruct (Ascii.eqb c quote) eqn:E; [|reflexivity].
    apply Ascii.eqb_eq in E. subst c. discriminate Hc.
Qed.

Lemma read_string_plain (v rest : string) :
  json_plain v = true ->
  read_string (String quote (v ++ String quote rest)) = Some (v, rest).
Proof.
  intros H. cbn [read_string]. rewrite Ascii.eqb_refl.
  now apply read_string_body_plain.
Qed.

Lemma decode_health_body (g : Globals) :
  json_plain (plantHealthStatus g) = true ->
  json_plain (plantHealthReason g) = true ->
  decode_object (health_body g)
  = Some [("status", plantHealthStatus g); ("reason", plantHealthReason g)].
Proof.
  intros Hs Hr.
  assert (Hshape : health_body g =
    String "{" (String quote ("status" ++ String quote (String ":"
      (String quote (plantHealthStatus g ++ String quote (String ","
        (String quote ("reason" ++ String quote (String ":"
          (String quote (plantHealthReason g
                         ++ String quote "}")))))))))))) by reflexivity.
  rewrite Hshape. clear Hshape.
  cbn [decode_object String.length read_members].
  unfold read_member.
  rewrite (read_string_plain "status" _ eq_refl).
  rewrite (read_string_plain _ _ Hs).
  cbn [read_members]. unfold read_member.
  rewrite (read_string_plain "reason" _ eq_refl).
  rewrite (read_string_plain _ _ Hr).
  reflexivity.
Qed.

(** X8. The /health body reads back: in every state the running program
    goes through, a decoder for JSON objects of plain strings returns from
    the body exactly the two members [status] and [reason], holding the
    current status and reason. *)
Theorem health_body_decodes (String_of_float : F32.float -> string)
  (w : World) :
  reachable String_of_float w ->
  exists body,
    option_map content (fst (serve HTTP_GET "/health" w)) = Some body
    /\ decode_object body
       = Some [("status", plantHealthStatus (globals w));
               ("reason", plantHealthReason (globals w))].
Proof.
  intros Hreach.
  pose proof (reachable_running String_of_float w Hreach)
    as [Hr Hl _ Hs Hj].
  exists (health_body (globals w)). split.
  - unfold serve. rewrite Hl, Hr. unfold sketch_routes.
    cbn [find_route route_uri route_method route_handler String.eqb
         Ascii.eqb Bool.eqb andb http_method_eqb].
    pose proof (health_handler_eq (globals w)) as Hh.
    destruct (health_handler (globals w)) as [r g']. cbn [fst] in Hh.
    subst r. reflexivity.
  - apply decode_health_body; [|exact Hj].
    destruct Hs as [-> | ->]; reflexivity.
Qed.

(** ** Size of the reason *)

(** X9. The reason is never longer than 74 characters and never holds
    both the "too low" and the "too high" message of one reading. *)
Theorem reason_bounded (g : Globals) :
  let r := plantHealthReason (updatePlantHealth g) in
  (String.length r <= 74)%nat
  /\ contains "Temperature too low" r && contains "Temperature too high" r
     = false
  /\ contains "Humidity too low" r && contains "Humidity too high" r = false
  /\ contains "Light too low" r && contains "Light too high" r = false
  /\ contains "Moisture too low" r && contains "Moisture too high" r = false.
Proof.
  cbv zeta. rewrite updatePlantHealth_eq. cbn [plantHealthReason].
  destruct g as [mp lp t h pt st rs]. unfold_checks.
  abstract_checks mp lp t h.
  destruct tl, th, hl, hh, ll, lh, ml, mh; vm_compute;
    repeat split; repeat constructor.
Qed.

(** ** Rounding never goes below a representable number *)

Lemma digits2_pos_bounds (p : positive) :
  2 ^ (Zpos (digits2_pos p) - 1) <= Zpos p < 2 ^ Zpos (digits2_pos p).
Proof.
  induction p as [p IH|p IH|]; cbn [digits2_pos].
  - rewrite Pos2Z.inj_succ.
    replace (Z.succ (Zpos (digits2_pos p)) - 1)
      with (Z.succ (Zpos (digits2_pos p) - 1)) by lia.
    rewrite !Z.pow_succ_r by lia. lia.
  - rewrite Pos2Z.inj_succ.
    replace (Z.succ (Zpos (digits2_pos p)) - 1)
      with (Z.succ (Zpos (digits2_pos p) - 1)) by lia.
    rewrite !Z.pow_succ_r by lia. lia.
  - cbn. lia.
Qed.

Lemma shr_1_half (mrs : shr_record) :
  0 <= shr_m mrs -> shr_m (shr_1 mrs) = shr_m mrs / 2.
Proof.
  destruct mrs as [m r s]. cbn [shr_m]. intros Hm.
  destruct m as [|[p|p|]|p]; cbn [shr_1 shr_m].
  - reflexivity.
  - apply (Z.div_unique (Zpos p~1) 2 (Zpos p) 1); lia.
  - apply (Z.div_unique (Zpos p~0) 2 (Zpos p) 0); lia.
  - reflexivity.
  - lia.
Qed.

Lemma pow2_xO (p : positive) : 2 ^ Zpos p~0 = 2 ^ Zpos p * 2 ^ Zpos p.
Proof.
  rewrite <- Z.pow_add_r by lia. f_equal. lia.
Qed.

Lemma pow2_xI (p : positive) : 2 ^ Zpos p~1 = 2 * (2 ^ Zpos p * 2 ^ Zpos p).
Proof.
  rewrite <- Z.pow_add_r, <- Z.pow_succ_r by lia. f_equal. lia.
Qed.

Lemma iter_shr_1_div (p : positive) :
  forall mrs, 0 <= shr_m mrs ->
    shr_m (iter_pos shr_1 p mrs) = shr_m mrs / 2 ^ Zpos p.
Proof.
  induction p as [p IH|p IH|]; intros mrs Hm; cbn [iter_pos].
  - rewrite IH by (apply iter_shr_1_nonneg, shr_1_nonneg, Hm).
    rewrite IH by (apply shr_1_nonneg, Hm).
    rewrite shr_1_half by exact Hm.
    assert (0 < 2 ^ Zpos p) by (apply Z.pow_pos_nonneg; lia).
    rewrite !Z.div_div by lia.
    now rewrite pow2_xI.
  - rewrite IH by (apply iter_shr_1_nonneg, Hm).
    rewrite IH by exact Hm.
    assert (0 < 2 ^ Zpos p) by (apply Z.pow_pos_nonneg; lia).
    rewrite Z.div_div by lia.
    now rewrite pow2_xO.
  - rewrite shr_1_half by exact Hm. reflexivity.
Qed.

(** [shr_fexp] divides the mantissa by the power of two that brings the
    exponent up to the format's, rounding down. *)
Lemma shr_fexp_floor (prec emax m e : Z) (l : location) :
  0 <= m ->
  let n := Z.max 0 (fexp prec emax (Zdigits2 m + e) - e) in
  shr_m (fst (shr_fexp prec emax m e l)) = m / 2 ^ n
  /\ snd (shr_fexp prec emax m e l) = e + n.
Proof.
  intros Hm n. subst n. unfold shr_fexp, shr.
  assert (H0 : shr_m (shr_record_of_loc m l) = m)
    by (destruct l as [|[]]; reflexivity).
  destruct (fexp prec emax (Zdigits2 m + e) - e) as [|p|p]; cbn [fst snd].
  - rewrite H0, Z.div_1_r. split; lia.
  - rewrite iter_shr_1_div by (rewrite H0; exact Hm).
    rewrite H0. split; [f_equal; f_equal; lia | lia].
  - rewrite H0. cbn [Z.max]. rewrite Z.div_1_r. split; lia.
Qed.

Lemma round_nearest_even_ge (m : Z) (l : location) :
  m <= round_nearest_even m l.
Proof.
  destruct l as [|[]]; cbn [round_nearest_even]; try lia.
  destruct (Z.even m); lia.
Qed.

(** The value [m * 2^e] of a finite float, scaled by [2^1200] so that it
    is an integer for every exponent that occurs. *)
Definition scale : Z := 1200.
Definition val (m e : Z) : Z := m * 2 ^ (e + scale).

(** [x] is plus infinity or a positive finite float of value at least
    [mt * 2^et], written with an exponent not below [et]. *)
Definition at_least (mt : positive) (et : Z) (x : spec_float) : Prop :=
  match x with
  | S754_infinity false => True
  | S754_finite false m e => et <= e /\ val (Zpos mt) et <= val (Zpos m) e
  | _ => False
  end.

Lemma pow2_pos (n : Z) : 0 <= n -> 0 < 2 ^ n.
Proof. intros. apply Z.pow_pos_nonneg; lia. Qed.

Lemma val_mono (m m' e : Z) : - scale <= e -> m <= m' -> val m e <= val m' e.
Proof.
  intros He Hm. unfold val.
  apply Z.mul_le_mono_nonneg_r; [|exact Hm].
  apply Z.lt_le_incl, pow2_pos. lia.
Qed.

(** Splitting the scale of a larger exponent. *)
Lemma val_shift (m e n : Z) :
  - scale <= e -> 0 <= n -> val m (e + n) = val (m * 2 ^ n) e.
Proof.
  intros He Hn. unfold val.
  replace (e + n + scale) with (n + (e + scale)) by lia.
  rewrite Z.pow_add_r by lia. lia.
Qed.

(** A mantissa of more than [prec] digits, cut down to [prec] digits,
    is worth more than any [prec]-digit mantissa at a lower exponent. *)
Lemma cut_exceeds (prec m d e mt et : Z) :
  0 < prec -> 2 ^ (d - 1) <= m -> prec < d ->
  0 < mt < 2 ^ prec -> - scale <= et -> et + 1 <= d + e - prec ->
  val mt et <= val (m / 2 ^ (d - prec)) (d + e - prec).
Proof.
  intros Hp Hm Hd Hmt Het Hf.
  assert (Hcut : 2 ^ (prec - 1) <= m / 2 ^ (d - prec)).
  { apply Z.div_le_lower_bound; [apply pow2_pos; lia|].
    rewrite <- Z.pow_add_r by lia.
    replace (d - prec + (prec - 1)) with (d - 1) by lia. exact Hm. }
  apply Z.le_trans with (val (2 ^ (prec - 1)) (d + e - prec));
    [|apply val_mono; [lia | exact Hcut]].
  replace (d + e - prec) with (et + (d + e - prec - et)) by lia.
  rewrite val_shift by lia.
  apply val_mono; [lia|].
  rewrite <- Z.pow_add_r by lia.
  apply Z.le_trans with (2 ^ prec); [lia|].
  apply Z.pow_le_mono_r; lia.
Qed.

(** A float at least as large has at least as many digits above the
    binary point. *)
Lemma magnitude_le (mt : positive) (et : Z) (mx : positive) (ex : Z) :
  - scale <= et -> - scale <= ex ->
  val (Zpos mt) et <= val (Zpos mx) ex ->
  Zpos (digits2_pos mt) + et <= Zpos (digits2_pos mx) + ex.
Proof.
  intros Het Hex Hv. unfold val in Hv.
  pose proof (digits2_pos_bounds mt) as [Ht _].
  pose proof (digits2_pos_bounds mx) as [_ Hx].
  assert (H : 2 ^ (Zpos (digits2_pos mt) - 1 + (et + scale))
              < 2 ^ (Zpos (digits2_pos mx) + (ex + scale))).
  { rewrite (Z.pow_add_r 2 (Zpos (digits2_pos mt) - 1)) by lia.
    rewrite (Z.pow_add_r 2 (Zpos (digits2_pos mx))) by lia.
    pose proof (pow2_pos (et + scale) ltac:(lia)).
    pose proof (pow2_pos (ex + scale) ltac:(lia)).
    apply Z.le_lt_trans with (Zpos mt * 2 ^ (et + scale));
      [apply Z.mul_le_mono_nonneg_r; lia|].
    apply Z.le_lt_trans with (Zpos mx * 2 ^ (ex + scale)); [exact Hv|].
    apply Z.mul_lt_mono_pos_r; [exact H0 | exact Hx]. }
  apply Z.pow_lt_mono_r_iff in H; lia.
Qed.

Lemma val_pos (m : positive) (e : Z) : - scale <= e -> 0 < val (Zpos m) e.
Proof.
  intros He. unfold val. apply Z.mul_pos_pos; [lia|]. apply pow2_pos. lia.
Qed.

(** One [shr_fexp] step keeps the mantissa-exponent pair at or above a
    number of the format that the input is at or above. *)
Lemma shr_fexp_lower (prec emax : Z) (m : positive) (e : Z) (l : location)
  (mt : positive) (et : Z) :
  0 < prec -> - scale <= et -> - scale <= e ->
  fexp prec emax (Zpos (digits2_pos mt) + et) = et ->
  val (Zpos mt) et <= val (Zpos m) e ->
  et <= snd (shr_fexp prec emax (Zpos m) e l)
  /\ val (Zpos mt) et
     <= val (shr_m (fst (shr_fexp prec emax (Zpos m) e l)))
            (snd (shr_fexp prec emax (Zpos m) e l)).
Proof.
  intros Hp Het He Hcan Hv.
  destruct (shr_fexp_floor prec emax (Zpos m) e l ltac:(lia)) as [Hm Hs].
  rewrite Hm, Hs. clear Hm Hs.
  pose proof (magnitude_le mt et m e Het He Hv) as Hmag.
  pose proof (digits2_pos_bounds m) as [Hlo _].
  pose proof (digits2_pos_bounds mt) as [_ Hhi].
  cbn [Zdigits2]. unfold fexp in *.
  set (d := Zpos (digits2_pos m)) in *.
  set (dt := Zpos (digits2_pos mt)) in *.
  set (mn := emin prec emax) in *.
  assert (Hdt : dt <= prec) by lia.
  assert (Hmt : Zpos mt < 2 ^ prec).
  { apply Z.lt_le_trans with (2 ^ dt); [exact Hhi|].
    apply Z.pow_le_mono_r; lia. }
  destruct (Z.le_gt_cases (Z.max (d + e - prec) mn) e) as [Hno|Hsh].
  - (* nothing to shift *)
    rewrite Z.max_l by lia. rewrite Z.div_1_r, Z.add_0_r.
    split; [lia | exact Hv].
  - rewrite Z.max_r by lia.
    replace (e + (Z.max (d + e - prec) mn - e))
      with (Z.max (d + e - prec) mn) by lia.
    split; [lia|].
    destruct (Z.eq_dec (Z.max (d + e - prec) mn) et) as [Heq|Hne].
    + (* down to the exponent of the bound *)
      rewrite Heq. apply val_mono; [lia|].
      apply Z.div_le_lower_bound; [apply pow2_pos; lia|].
      unfold val in Hv.
      replace (et + scale) with ((et - e) + (e + scale)) in Hv by lia.
      rewrite Z.pow_add_r in Hv by lia.
      pose proof (pow2_pos (e + scale) ltac:(lia)) as Hpos.
      rewrite Z.mul_assoc in Hv.
      apply Z.mul_le_mono_pos_r in Hv; [|exact Hpos].
      lia.
    + (* above it: the mantissa keeps [prec] digits *)
      assert (Hf : Z.max (d + e - prec) mn = d + e - prec) by lia.
      rewrite Hf.
      replace (d + e - prec - e) with (d - prec) by lia.
      apply cut_exceeds; lia.
Qed.

(** Rounding a positive number that is at least [mt * 2^et], a number of
    the format, gives at least that number. *)
Lemma binary_round_aux_lower (prec emax : Z) (mx : positive) (ex : Z)
  (lx : location) (mt : positive) (et : Z) :
  0 < prec -> - scale <= et -> - scale <= ex ->
  fexp prec emax (Zpos (digits2_pos mt) + et) = et ->
  val (Zpos mt) et <= val (Zpos mx) ex ->
  at_least mt et (binary_round_aux prec emax false (Zpos mx) ex lx).
Proof.
  intros Hp Het Hex Hcan Hv. unfold binary_round_aux.
  pose proof (shr_fexp_lower prec emax mx ex lx mt et Hp Het Hex Hcan Hv)
    as [He1 Hv1].
  destruct (shr_fexp prec emax (Zpos mx) ex lx) as [mrs' e'].
  cbn [fst snd] in He1, Hv1.
  pose proof (val_pos mt et Het) as Hpos.
  pose proof (round_nearest_even_ge (shr_m mrs') (loc_of_shr_record mrs'))
    as Hr.
  assert (Hv2 : val (Zpos mt) et
                <= val (round_nearest_even (shr_m mrs')
                          (loc_of_shr_record mrs')) e').
  { apply Z.le_trans with (1 := Hv1). apply val_mono; [lia | exact Hr]. }
  destruct (round_nearest_even (shr_m mrs') (loc_of_shr_record mrs'))
    as [|m2|m2].
  - unfold val in Hv2. lia.
  - pose proof (shr_fexp_lower prec emax m2 e' loc_Exact mt et Hp Het
                  ltac:(lia) Hcan Hv2) as [He3 Hv3].
    destruct (shr_fexp prec emax (Zpos m2) e' loc_Exact) as [mrs'' e''].
    cbn [fst snd] in He3, Hv3.
    destruct (shr_m mrs'') as [|m3|m3].
    + unfold val in Hv3. lia.
    + destruct (Z.leb e'' (emax - prec)); cbn [at_least]; auto.
    + unfold val in Hv3, Hpos.
      pose proof (pow2_pos (e'' + scale) ltac:(lia)). nia.
  - unfold val in Hv2, Hpos.
    pose proof (pow2_pos (e' + scale) ltac:(lia)). nia.
Qed.

Lemma iter_xO_pow (m d : positive) :
  Zpos (Pos.iter xO m d) = Zpos m * 2 ^ Zpos d.
Proof.
  induction d as [|d IH] using Pos.peano_ind.
  - cbn [Pos.iter]. lia.
  - rewrite Pos.iter_succ, Pos2Z.inj_succ, Z.pow_succ_r by lia.
    rewrite Pos2Z.inj_xO, IH. lia.
Qed.

(** [shl_align] rewrites a float with a smaller exponent, value
    unchanged. *)
Lemma shl_align_val (m : positive) (e e' : Z) :
  - scale <= e -> - scale <= e' ->
  val (Zpos (fst (shl_align m e e'))) (snd (shl_align m e e')) = val (Zpos m) e
  /\ - scale <= snd (shl_align m e e').
Proof.
  intros He He'. unfold shl_align.
  destruct (e' - e) as [|d|d] eqn:Hd; cbn [fst snd]; try (split; [reflexivity | lia]).
  split; [|lia].
  rewrite iter_xO_pow. replace e with (e' + Zpos d) by lia.
  rewrite val_shift by lia. reflexivity.
Qed.

Lemma binary_round_lower (prec emax : Z) (m : positive) (e : Z)
  (mt : positive) (et : Z) :
  0 < prec -> - scale <= emin prec emax -> - scale <= et -> - scale <= e ->
  fexp prec emax (Zpos (digits2_pos mt) + et) = et ->
  val (Zpos mt) et <= val (Zpos m) e ->
  at_least mt et (binary_round prec emax false m e).
Proof.
  intros Hp Hmin Het He Hcan Hv. unfold binary_round.
  assert (Hf : - scale <= fexp prec emax (Zpos (digits2_pos m) + e))
    by (unfold fexp; lia).
  destruct (shl_align_val m e _ He Hf) as [Hval Hez].
  destruct (shl_align m e _) as [mz ez]. cbn [fst snd] in Hval, Hez.
  apply binary_round_aux_lower; try assumption.
  now rewrite Hval.
Qed.

(** The constants of the conversion. *)
(** The mantissas of the constants of the conversion: 1000 as a [float]
    (exponent -14) and as a [double] (exponent -43), 100 as a [double]
    (exponent -46) and as a [float] (exponent -17), 1 as a [double]
    (exponent -52). *)
Definition c1000_32 : positive := 16384000.
Definition c1000_64 : positive := 8796093022208000.
Definition c100_64 : positive := 7036874417766400.
Definition c100_32 : positive := 13107200.
Definition one_64 : positive := 4503599627370496.

(** A valid [float] that compares at or above 1000 is worth at least
    1000. *)
Lemma at_least_1000 (x : F32.float) :
  F32.valid x = true -> F32.leb (F32.of_Z 1000) x = true ->
  x = S754_infinity false
  \/ exists m e, x = S754_finite false m e /\ -14 <= e
                 /\ val (Zpos c1000_32) (-14) <= val (Zpos m) e.
Proof.
  intros Hvalid Hle.
  change (F32.of_Z 1000) with (S754_finite false c1000_32 (-14)) in Hle.
  destruct x as [s|s| |s m e]; try destruct s; try discriminate Hle;
    [left; reflexivity|right].
  exists m, e. split; [reflexivity|].
  unfold F32.leb, SFleb in Hle. cbn [SFcompare] in Hle.
  unfold F32.valid, valid_binary, bounded, canonical_mantissa in Hvalid.
  apply andb_prop in Hvalid. destruct Hvalid as [Hcan _].
  apply Z.eqb_eq in Hcan. unfold fexp, emin, F32.prec, F32.emax in Hcan.
  destruct (Z.compare_spec (-14) e) as [Heq|Hlt|Hgt];
    [| |discriminate Hle].
  - subst e. split; [lia|]. apply val_mono; [unfold scale; lia|].
    change (PosDef.Pos.compare_cont Eq c1000_32 m)
      with (Pos.compare c1000_32 m) in Hle.
    destruct (Pos.compare_spec c1000_32 m); try discriminate Hle; lia.
  - split; [lia|].
    pose proof (digits2_pos_bounds m) as [Hlo _].
    assert (Hd : Zpos (digits2_pos m) = 24) by lia.
    rewrite Hd in Hlo.
    replace e with (-14 + (e + 14)) by lia.
    rewrite val_shift by (unfold scale; lia).
    apply val_mono; [unfold scale; lia|].
    assert (2 <= 2 ^ (e + 14)).
    { change 2 with (2 ^ 1) at 1. apply Z.pow_le_mono_r; lia. }
    change (2 ^ (24 - 1)) with 8388608 in Hlo. unfold c1000_32. nia.
Qed.

(** Promotion to [double] keeps a float at or above 1000. *)
Lemma of_float_lower (x : F32.float) :
  F32.valid x = true -> F32.leb (F32.of_Z 1000) x = true ->
  at_least c1000_64 (-43) (F64.of_float x).
Proof.
  intros Hvalid Hle.
  destruct (at_least_1000 x Hvalid Hle) as [->|(m & e & -> & He & Hv)];
    [exact I|].
  cbn [F64.of_float F64.signed_mantissa binary_normalize].
  apply binary_round_lower.
  - reflexivity.
  - vm_compute. discriminate.
  - vm_compute. discriminate.
  - unfold scale. lia.
  - reflexivity.
  - assert (E : val (Zpos c1000_64) (-43) = val (Zpos c1000_32) (-14))
      by (vm_compute; reflexivity).
    rewrite E. exact Hv.
Qed.

(** Dividing a [double] that is at least 1000 by 1000 gives at least 1. *)
Lemma div_1000_lower (x : F64.double) :
  at_least c1000_64 (-43) x ->
  at_least one_64 (-52) (F64.div x (F64.of_Z 1000)).
Proof.
  change (F64.of_Z 1000) with (S754_finite false c1000_64 (-43)).
  destruct x as [s|s| |s m e]; try destruct s; try contradiction;
    [intros _; exact I|].
  intros [He Hv]. unfold F64.div. cbn [SFdiv xorb].
  pose proof (eq_refl : scale = 1200) as Hsc.
  unfold SFdiv_core_binary.
  change (Zdigits2 (Zpos c1000_64)) with 53.
  cbn [Zdigits2].
  set (d := Zpos (digits2_pos m)).
  set (e' := Z.min (fexp F64.prec F64.emax (d + e - (53 + -43))) (e - -43)).
  set (sh := e - -43 - e').
  assert (He' : - scale <= e' <= e + 43).
  { subst e'. unfold fexp, emin, F64.prec, F64.emax. lia. }
  assert (Hsh : 0 <= sh) by (subst sh; lia).
  set (m' := match sh with
             | 0 => Zpos m
             | Zpos _ => Z.shiftl (Zpos m) sh
             | Zneg _ => 0
             end).
  assert (Hm' : m' = Zpos m * 2 ^ sh).
  { subst m'. destruct sh as [|p|p]; [lia | | lia].
    apply Z.shiftl_mul_pow2. lia. }
  (* the operand is at least the divisor *)
  assert (Hge : Zpos c1000_64 <= Zpos m * 2 ^ (e + 43)).
  { unfold val in Hv.
    replace (e + scale) with ((e + 43) + (-43 + scale)) in Hv by lia.
    rewrite (Z.pow_add_r 2 (e + 43) (-43 + scale)) in Hv
      by lia.
    rewrite Z.mul_assoc in Hv.
    apply Z.mul_le_mono_pos_r in Hv; [exact Hv|].
    apply pow2_pos. lia. }
  assert (Hq : val (Zpos one_64) (-52) <= val (m' / Zpos c1000_64) e').
  { destruct (Z.le_gt_cases e' 0) as [Hneg|Hpos].
    - apply Z.le_trans with (val (2 ^ (- e')) e').
      + unfold val. rewrite <- Z.pow_add_r by lia.
        replace (- e' + (e' + scale)) with scale by lia.
        vm_compute. discriminate.
      + apply val_mono; [lia|].
        apply Z.div_le_lower_bound; [lia|].
        rewrite Hm'. replace sh with ((e + 43) + - e') by (subst sh; lia).
        rewrite Z.pow_add_r by lia.
        pose proof (pow2_pos (- e') ltac:(lia)). nia.
    - apply Z.le_trans with (val 1 e').
      + unfold val. rewrite Z.mul_1_l.
        apply Z.le_trans with (2 ^ scale); [vm_compute; discriminate|].
        apply Z.pow_le_mono_r; lia.
      + apply val_mono; [lia|].
        apply Z.div_le_lower_bound; [lia|].
        rewrite Hm', Z.mul_1_r.
        pose proof (digits2_pos_bounds m) as [Hlo _]. fold d in Hlo.
        assert (Hd : 106 - d <= sh).
        { subst sh e'. unfold fexp, emin, F64.prec, F64.emax in *. lia. }
        apply Z.le_trans with (2 ^ 105); [vm_compute; discriminate|].
        pose proof (pow2_pos sh Hsh) as Hsh2.
        pose proof (pow2_pos (d - 1) ltac:(lia)) as Hd2.
        destruct (Z.le_gt_cases d 106) as [Hsmall|Hbig].
        * apply Z.le_trans with (2 ^ (d - 1) * 2 ^ (106 - d)).
          -- rewrite <- Z.pow_add_r by lia.
             replace (d - 1 + (106 - d)) with 105 by lia. lia.
          -- apply Z.mul_le_mono_nonneg; try lia;
               first [ apply Z.pow_le_mono_r; lia
                     | apply Z.lt_le_incl, pow2_pos; lia ].
        * apply Z.le_trans with (2 ^ (d - 1)).
          -- apply Z.pow_le_mono_r; lia.
          -- nia. }
  assert (Hdiv : fst (Z.div_eucl m' (Zpos c1000_64)) = m' / Zpos c1000_64)
    by reflexivity.
  destruct (Z.div_eucl m' (Zpos c1000_64)) as [q r]. cbn [fst] in Hdiv.
  rewrite <- Hdiv in Hq.
  destruct q as [|q|q].
  - pose proof (val_pos one_64 (-52) ltac:(lia)).
    unfold val in Hq at 2. lia.
  - apply binary_round_aux_lower.
    + reflexivity.
    + vm_compute. discriminate.
    + lia.
    + reflexivity.
    + exact Hq.
  - pose proof (val_pos one_64 (-52) ltac:(lia)).
    unfold val in Hq at 2.
    pose proof (pow2_pos (e' + scale) ltac:(lia)). nia.
Qed.

(** Multiplying a [double] that is at least 1 by 100 gives at least
    100. *)
Lemma mul_100_lower (x : F64.double) :
  at_least one_64 (-52) x ->
  at_least c100_64 (-46) (F64.mul x (F64.of_Z 100)).
Proof.
  change (F64.of_Z 100) with (S754_finite false c100_64 (-46)).
  destruct x as [s|s| |s m e]; try destruct s; try contradiction;
    [intros _; exact I|].
  intros [He Hv]. unfold F64.mul. cbn [SFmul xorb].
  pose proof (eq_refl : scale = 1200) as Hsc.
  apply binary_round_aux_lower.
  - reflexivity.
  - vm_compute. discriminate.
  - lia.
  - reflexivity.
  - unfold val in *. rewrite Pos2Z.inj_mul.
    assert (H1 : 2 ^ scale <= Zpos m * 2 ^ (e + scale)).
    { apply Z.le_trans with (2 := Hv). vm_compute. discriminate. }
    assert (H2 : 2 ^ (-46 + scale) <= Zpos m * 2 ^ (e + -46 + scale)).
    { replace scale with (46 + (-46 + scale)) in H1 at 1 by lia.
      replace (e + scale) with (46 + (e + -46 + scale)) in H1 by lia.
      rewrite (Z.pow_add_r 2 46 (-46 + scale)) in H1 by lia.
      rewrite (Z.pow_add_r 2 46 (e + -46 + scale)) in H1 by lia.
      pose proof (pow2_pos 46 ltac:(lia)).
      pose proof (pow2_pos (-46 + scale) ltac:(lia)).
      pose proof (pow2_pos (e + -46 + scale) ltac:(lia)).
      nia. }
    pose proof (pow2_pos (-46 + scale) ltac:(lia)).
    pose proof (pow2_pos (e + -46 + scale) ltac:(lia)).
    nia.
Qed.

(** Narrowing a [double] that is at least 100 gives a [float] that is at
    least 100. *)
Lemma to_float_lower (x : F64.double) :
  at_least c100_64 (-46) x -> at_least c100_32 (-17) (F64.to_float x).
Proof.
  destruct x as [s|s| |s m e]; try destruct s; try contradiction;
    [intros _; exact I|].
  intros [He Hv].
  cbn [F64.to_float F64.signed_mantissa binary_normalize].
  pose proof (eq_refl : scale = 1200) as Hsc.
  apply binary_round_lower.
  - reflexivity.
  - vm_compute. discriminate.
  - vm_compute. discriminate.
  - lia.
  - reflexivity.
  - assert (E : val (Zpos c100_32) (-17) = val (Zpos c100_64) (-46))
      by (vm_compute; reflexivity).
    rewrite E. exact Hv.
Qed.

Lemma light_conversion_lower (lux : F32.float) :
  F32.valid lux = true -> F32.leb (F32.of_Z 1000) lux = true ->
  at_least c100_32 (-17) (light_conversion lux).
Proof.
  intros Hvalid Hle. unfold light_conversion.
  apply to_float_lower, mul_100_lower, div_1000_lower, of_float_lower;
    assumption.
Qed.

Lemma val_cancel (a b e : Z) :
  - scale <= e -> val a e <= val b e -> a <= b.
Proof.
  intros He Hv. unfold val in Hv.
  pose proof (pow2_pos (e + scale) ltac:(lia)) as Hp.
  apply Z.mul_le_mono_pos_r in Hv; assumption.
Qed.

(** At or above 100, the clamp of [loop] returns exactly 100. *)
Lemma clamp_at_least_100 (y : F32.float) :
  at_least c100_32 (-17) y ->
  (if F32.gtb y (F32.of_Z 100) then F32.of_Z 100 else y) = F32.of_Z 100.
Proof.
  change (F32.of_Z 100) with (S754_finite false c100_32 (-17)).
  destruct y as [s|s| |s m e]; try destruct s; try contradiction;
    [intros _; reflexivity|].
  intros [He Hv]. unfold F32.gtb, SFltb. cbn [SFcompare].
  destruct (Z.compare_spec (-17) e) as [Heq|Hlt|Hgt]; [|reflexivity|lia].
  subst e.
  change (PosDef.Pos.compare_cont Eq c100_32 m) with (Pos.compare c100_32 m).
  destruct (Pos.compare_spec c100_32 m) as [Hm|Hm|Hm].
  - now subst m.
  - reflexivity.
  - exfalso. apply val_cancel in Hv; [|vm_compute; discriminate].
    apply (Z.lt_irrefl (Zpos m)).
    apply Z.lt_le_trans with (Zpos c100_32); [exact Hm | exact Hv].
Qed.

(** X10. The light percentage saturates: whenever the sensor returns a
    valid [float] that compares at or above 1000, plus infinity included,
    the tick stores exactly 100. *)
Theorem light_saturates_at_1000 (s : Sensors) (w : World) :
  F32.valid (readLightLevel s) = true ->
  F32.leb (F32.of_Z 1000) (readLightLevel s) = true ->
  lightPercentage (globals (loop s w)) = F32.of_Z 100.
Proof.
  intros Hvalid Hle. rewrite light_loop.
  apply clamp_at_least_100, light_conversion_lower; assumption.
Qed.

(** ** Witnesses on the sample run *)


Lemma health_body_decodes_witness :
  exists body,
    option_map content (fst (serve HTTP_GET "/health" first_tick)) = Some body
    /\ decode_object body
       = Some [("status", plantHealthStatus (globals first_tick));
               ("reason", plantHealthReason (globals first_tick))].
Proof.
  exact (health_body_decodes fixed_point_text first_tick first_tick_reachable).
Defined.

Lemma light_saturates_at_1000_witness :
  lightPercentage
    (globals (loop (mkSensors 600 (F32.of_Z 54612) (F32.of_Z 21) (F32.of_Z 50))
                   (power_on (fun _ => 3)))) = F32.of_Z 100.
Proof.
  apply light_saturates_at_1000; reflexivity.
Defined.

(** ** Pump and status *)

Lemma of_Z_not_nan (z : Z) : is_nan (F32.of_Z z) = false.
Proof.
  unfold F32.of_Z, binary_normalize. destruct z as [|p|p].
  - reflexivity.
  - apply (signed_not_nan false), binary_round_signed.
  - apply (signed_not_nan true), binary_round_signed.
Qed.

Lemma status_Good_none_violated (g : Globals) :
  plantHealthStatus (updatePlantHealth g) = "Good" <->
  temperature_violated g || humidity_violated g
    || light_violated g || moisture_violated g = false.
Proof.
  rewrite updatePlantHealth_eq. cbn [plantHealthStatus].
  destruct (_ || _); split; intros H; try reflexivity; discriminate H.
Qed.

(** X11. The moisture percentage of a tick is never NaN, so the moisture
    check cannot be skipped: a tick that switches the pump on ends "At
    Risk", and a tick that ends "Good" leaves the pump off with the
    moisture between 50 and 80, bounds included. *)
Theorem pump_on_means_at_risk (s : Sensors) (w : World) :
  let w' := loop s w in
  is_nan (moisturePercentage (globals w')) = false
  /\ (relay w' = LOW -> plantHealthStatus (globals w') = "At Risk")
  /\ (plantHealthStatus (globals w') = "Good" ->
      relay w' = HIGH
      /\ within 50 80 (moisturePercentage (globals w')) = true).
Proof.
  cbv zeta.
  assert (Hnan : is_nan (moisturePercentage (globals (loop s w))) = false)
    by (rewrite moisture_loop; apply of_Z_not_nan).
  assert (Hgood : plantHealthStatus (globals (loop s w)) = "Good" ->
                  F32.ltb (moisturePercentage (globals (loop s w)))
                          (F32.of_Z 50)
                  || F32.gtb (moisturePercentage (globals (loop s w)))
                             (F32.of_Z 80) = false).
  { rewrite globals_loop, moisture_updatePlantHealth.
    intros H. apply status_Good_none_violated in H.
    apply orb_false_iff in H. destruct H as [_ H]. exact H. }
  split; [exact Hnan|]. rewrite relay_loop. split.
  - intros Hlow.
    destruct (F32.ltb (moisturePercentage (globals (loop s w))) (F32.of_Z 50))
      eqn:Hlt; [|discriminate Hlow].
    pose proof (updatePlantHealth_status (sampled s (globals w))) as Hst.
    rewrite <- globals_loop in Hst. destruct Hst as [Hst|Hst]; [|exact Hst].
    apply Hgood in Hst. discriminate Hst.
  - intros Hst. pose proof (Hgood Hst) as Hin.
    split.
    + apply orb_false_iff in Hin. destruct Hin as [Hlt _]. now rewrite Hlt.
    + apply (in_range_iff 50 80 _ eq_refl eq_refl) in Hin.
      rewrite Hnan in Hin. exact Hin.
Qed.

(** ** What the dashboard shows *)

Lemma serve_readings (String_of_float : F32.float -> string) (w : World) :
  running String_of_float w ->
  fst (serve HTTP_GET "/readings" w)
  = Some (mkResponse 200 "application/json"
            (readings_body String_of_float (globals w))).
Proof.
  intros [Hr Hl _ _ _]. unfold serve. rewrite Hl, Hr. unfold sketch_routes.
  cbn [find_route route_uri route_method route_handler String.eqb
       Ascii.eqb Bool.eqb andb http_method_eqb].
  pose proof (readings_handler_eq String_of_float (globals w)) as Hh.
  destruct (readings_handler String_of_float (globals w)) as [r g'].
  cbn [fst] in Hh. subst r. reflexivity.
Qed.

(** X12. The readings served after a tick are those of the tick: GET
    /readings, asked after a tick, answers 200 with the moisture mapped
    from the raw reading of that tick, its light percentage after the
    clamp, and the temperature and the humidity exactly as the DHT driver
    returned them. *)
Theorem readings_show_last_tick (String_of_float : F32.float -> string)
  (s : Sensors) (w : World) :
  reachable String_of_float w ->
  fst (serve HTTP_GET "/readings" (loop s w))
  = Some (mkResponse 200 "application/json"
      ("{" ++ dq ++ "moisture" ++ dq ++ ":"
       ++ String_of_float
            (F32.of_Z (map (Int32.wrap (analogRead_MOISTURE_PIN s))
                           405 870 100 0)) ++ ","
       ++ dq ++ "light" ++ dq ++ ":"
       ++ String_of_float
            (if F32.gtb (light_conversion (readLightLevel s)) (F32.of_Z 100)
             then F32.of_Z 100 else light_conversion (readLightLevel s))
       ++ ","
       ++ dq ++ "temperature" ++ dq ++ ":"
       ++ String_of_float (readTemperature s) ++ ","
       ++ dq ++ "humidity" ++ dq ++ ":"
       ++ String_of_float (readHumidity s) ++ "}")).
Proof.
  intros Hreach.
  rewrite (serve_readings String_of_float (loop s w))
    by (apply reachable_running, reach_loop, Hreach).
  unfold readings_body.
  rewrite moisture_loop, light_loop, globals_loop, updatePlantHealth_eq.
  reflexivity.
Qed.

Lemma readings_show_last_tick_witness :
  option_map code
    (fst (serve HTTP_GET "/readings" (loop (reading 500) first_tick)))
  = Some 200.
Proof.
  rewrite (readings_show_last_tick fixed_point_text (reading 500) first_tick
             first_tick_reachable).
  reflexivity.
Defined.

(** * The light conversion below 1000 lux *)

(** ** Rounding never goes above a representable number *)

Lemma round_nearest_even_le (m : Z) (l : location) :
  round_nearest_even m l <= m + 1.
Proof.
  destruct l as [|[]]; cbn [round_nearest_even]; try lia.
  destruct (Z.even m); lia.
Qed.

(** [x] is plus zero or a positive finite float of value at most
    [mt * 2^et], written with an exponent not above [et]. *)
Definition at_most (mt : positive) (et : Z) (x : spec_float) : Prop :=
  match x with
  | S754_zero false => True
  | S754_finite false m e =>
      - 1074 <= e <= et /\ val (Zpos m) e <= val (Zpos mt) et
  | _ => False
  end.

Lemma val_plus (a b e : Z) : val (a + b) e = val a e + val b e.
Proof. unfold val. lia. Qed.

(** The unit of a lower exponent is worth less. *)
Lemma val_unit_mono (e e' : Z) :
  - scale <= e -> e <= e' -> val 1 e <= val 1 e'.
Proof.
  intros He Hle. unfold val. rewrite !Z.mul_1_l.
  apply Z.pow_le_mono_r; lia.
Qed.

(** Digits above the binary point of a number that is not larger. *)
Lemma magnitude_le_Z (mx ex : Z) (mt : positive) (et : Z) :
  - scale <= ex -> ex <= et -> 0 <= mx ->
  val mx ex <= val (Zpos mt) et ->
  Zdigits2 mx + ex <= Zpos (digits2_pos mt) + et.
Proof.
  intros Hex Hle Hmx Hv.
  destruct mx as [|mx|mx]; cbn [Zdigits2]; [lia| |lia].
  apply magnitude_le; [exact Hex | lia | exact Hv].
Qed.

(** One [shr_fexp] step below a number of the format: the exponent stays at
    or below the bound's, and the cut mantissa stays a unit below it. *)
Lemma shr_fexp_upper (prec emax m e : Z) (l : location)
  (mt : positive) (et : Z) :
  0 < prec -> - scale <= e -> e <= et -> 0 <= m ->
  fexp prec emax (Zpos (digits2_pos mt) + et) = et ->
  val (m + 1) e <= val (Zpos mt) et ->
  e <= snd (shr_fexp prec emax m e l) <= et
  /\ val (shr_m (fst (shr_fexp prec emax m e l)) + 1)
         (snd (shr_fexp prec emax m e l))
     <= val (Zpos mt) et.
Proof.
  intros Hp He Hle Hm Hcan Hv.
  destruct (shr_fexp_floor prec emax m e l Hm) as [Hq Hs].
  rewrite Hq, Hs. clear Hq Hs.
  assert (Hv0 : val m e <= val (Zpos mt) et).
  { apply Z.le_trans with (2 := Hv). apply val_mono; lia. }
  pose proof (magnitude_le_Z m e mt et He Hle Hm Hv0) as Hmag.
  set (n := Z.max 0 (fexp prec emax (Zdigits2 m + e) - e)).
  assert (Hn : 0 <= n) by (subst n; lia).
  assert (Hn' : e + n <= et).
  { subst n. unfold fexp in *. lia. }
  split; [lia|].
  (* the bound is a multiple of the new unit *)
  replace et with (e + n + (et - (e + n))) by lia.
  rewrite (val_shift (Zpos mt)) by lia.
  apply val_mono; [lia|].
  assert (Hb : m + 1 <= Zpos mt * 2 ^ (et - (e + n)) * 2 ^ n).
  { rewrite <- Z.mul_assoc, <- Z.pow_add_r by lia.
    replace (et - (e + n) + n) with (et - e) by lia.
    apply (val_cancel _ _ e He).
    rewrite <- val_shift by lia.
    replace (e + (et - e)) with et by lia. exact Hv. }
  pose proof (pow2_pos n Hn) as Hpn.
  assert (m / 2 ^ n < Zpos mt * 2 ^ (et - (e + n))).
  { apply Z.div_lt_upper_bound; [exact Hpn|]. lia. }
  lia.
Qed.

(** Rounding a number that is below [mt * 2^et], a number of the format,
    by at least one unit of its own exponent gives at most that number. *)
Lemma binary_round_aux_upper (prec emax mx ex : Z) (lx : location)
  (mt : positive) (et : Z) :
  0 < prec -> - 1074 <= emin prec emax -> - scale <= ex -> ex <= et ->
  0 <= mx ->
  fexp prec emax (Zpos (digits2_pos mt) + et) = et ->
  et <= emax - prec ->
  val (mx + 1) ex <= val (Zpos mt) et ->
  at_most mt et (binary_round_aux prec emax false mx ex lx).
Proof.
  intros Hp Hmin Hex Hle Hmx Hcan Hmax Hv. unfold binary_round_aux.
  pose proof (eq_refl : scale = 1200) as Hsc.
  pose proof (shr_fexp_upper prec emax mx ex lx mt et Hp ltac:(lia) Hle Hmx
                Hcan Hv) as (He1 & Hv1).
  pose proof (shr_fexp_nonneg prec emax mx ex lx Hmx) as Hm1.
  destruct (shr_fexp prec emax mx ex lx) as [mrs' e'].
  cbn [fst snd] in He1, Hv1, Hm1.
  pose proof (round_nearest_even_le (shr_m mrs') (loc_of_shr_record mrs'))
    as Hr.
  pose proof (round_nearest_even_nonneg (shr_m mrs') (loc_of_shr_record mrs')
                Hm1) as Hr0.
  set (m2 := round_nearest_even (shr_m mrs') (loc_of_shr_record mrs')) in *.
  assert (Hv2 : val m2 e' <= val (Zpos mt) et).
  { apply Z.le_trans with (2 := Hv1). apply val_mono; lia. }
  destruct (shr_fexp_floor prec emax m2 e' loc_Exact Hr0) as [Hq Hs].
  pose proof (magnitude_le_Z m2 e' mt et ltac:(lia) ltac:(lia) Hr0 Hv2)
    as Hmag.
  destruct (shr_fexp prec emax m2 e' loc_Exact) as [mrs'' e''].
  cbn [fst snd] in Hq, Hs.
  set (n := Z.max 0 (fexp prec emax (Zdigits2 m2 + e') - e')) in *.
  assert (Hn : 0 <= n) by (subst n; lia).
  assert (He3 : emin prec emax <= e'' <= et).
  { rewrite Hs. subst n. unfold fexp in *. lia. }
  pose proof (pow2_pos n Hn) as Hpn.
  assert (Hv3 : val (shr_m mrs'') e'' <= val (Zpos mt) et).
  { apply Z.le_trans with (2 := Hv2). rewrite Hq, Hs.
    rewrite val_shift by lia. apply val_mono; [lia|].
    rewrite Z.mul_comm. apply Z.mul_div_le. exact Hpn. }
  assert (Hq0 : 0 <= shr_m mrs'').
  { rewrite Hq. apply Z.div_pos; lia. }
  destruct (shr_m mrs'') as [|m3|m3]; [exact I| |lia].
  replace (Z.leb e'' (emax - prec)) with true
    by (symmetry; apply Z.leb_le; lia).
  cbn [at_most]. split; [lia | exact Hv3].
Qed.

(** The same for [binary_round], which first aligns the mantissa on the
    exponent of the format. *)
Lemma binary_round_upper (prec emax : Z) (m : positive) (e : Z)
  (mt : positive) (et : Z) :
  0 < prec -> - 1074 <= emin prec emax -> - 1074 <= e ->
  fexp prec emax (Zpos (digits2_pos mt) + et) = et ->
  et <= emax - prec ->
  Z.min e (fexp prec emax (Zpos (digits2_pos m) + e)) <= et ->
  val (Zpos m) e
    + val 1 (Z.min e (fexp prec emax (Zpos (digits2_pos m) + e)))
    <= val (Zpos mt) et ->
  at_most mt et (binary_round prec emax false m e).
Proof.
  intros Hp Hmin He Hcan Hmax Hle Hv. unfold binary_round.
  pose proof (eq_refl : scale = 1200) as Hsc.
  assert (Hf : - 1074 <= fexp prec emax (Zpos (digits2_pos m) + e))
    by (unfold fexp; lia).
  destruct (shl_align_val m e (fexp prec emax (Zpos (digits2_pos m) + e))
              ltac:(lia) ltac:(lia)) as [Hval _].
  assert (Hez : snd (shl_align m e (fexp prec emax (Zpos (digits2_pos m) + e)))
                = Z.min e (fexp prec emax (Zpos (digits2_pos m) + e))).
  { unfold shl_align.
    destruct (fexp prec emax (Zpos (digits2_pos m) + e) - e) eqn:Hd;
      cbn [snd]; lia. }
  destruct (shl_align m e _) as [mz ez]. cbn [fst snd] in Hval, Hez.
  apply binary_round_aux_upper; try assumption; try lia.
  rewrite val_plus, Hval, Hez. exact Hv.
Qed.

(** ** Below 1000 lux the clamp does not apply *)

(** The mantissas of the bounds that separate the steps of the conversion
    below 1000: [1000 - 2^-14], the largest [float] below 1000; then, as
    [double]s, [1000 - 2^-15] (exponent -43), [1 - 2^-25] (exponent -53)
    and [100 - 2^-20] (exponent -46). *)
Definition below_1000_32 : positive := 16383999.
Definition below_1000_64 : positive := 8796092753772544.
Definition below_1_64 : positive := 9007198986305536.
Definition below_100_64 : positive := 7036874350657536.

Lemma compare_cont_Lt (a b : positive) :
  PosDef.Pos.compare_cont Eq a b = Lt -> Zpos a < Zpos b.
Proof.
  intros H. exact H.
Qed.

Lemma compare_cont_Z (a b : positive) :
  PosDef.Pos.compare_cont Eq a b = Z.compare (Zpos a) (Zpos b).
Proof. reflexivity. Qed.

(** A valid [float] that compares at or above 0 and below 1000 is a zero
    or a positive number of value at most [1000 - 2^-14]. *)
Lemma below_1000 (x : F32.float) :
  F32.valid x = true ->
  F32.leb (F32.of_Z 0) x = true -> F32.ltb x (F32.of_Z 1000) = true ->
  (exists s, x = S754_zero s)
  \/ exists m e, x = S754_finite false m e /\ - 149 <= e <= - 14
                 /\ Zpos (digits2_pos m) <= 24
                 /\ val (Zpos m) e <= val (Zpos below_1000_32) (-14).
Proof.
  intros Hvalid H0 Hlt.
  change (F32.of_Z 1000) with (S754_finite false c1000_32 (-14)) in Hlt.
  change (F32.of_Z 0) with (S754_zero false) in H0.
  destruct x as [s|s| |s m e]; try destruct s; try discriminate H0;
    try discriminate Hlt; [left; eauto | left; eauto | right].
  exists m, e. split; [reflexivity|].
  unfold F32.ltb, SFltb in Hlt. cbn [SFcompare] in Hlt.
  unfold F32.valid, valid_binary, bounded, canonical_mantissa in Hvalid.
  apply andb_prop in Hvalid. destruct Hvalid as [Hcan _].
  apply Z.eqb_eq in Hcan. unfold fexp, emin, F32.prec, F32.emax in Hcan.
  pose proof (eq_refl : scale = 1200) as Hsc.
  pose proof (digits2_pos_bounds m) as [_ Hhi].
  destruct (Z.compare e (-14)) eqn:Hc; [| |discriminate Hlt].
  - apply Z.compare_eq in Hc. subst e.
    split; [lia|]. split; [lia|]. apply val_mono; [lia|].
    destruct (PosDef.Pos.compare_cont Eq m c1000_32) eqn:Hm;
      try discriminate Hlt.
    apply compare_cont_Lt in Hm. clear - Hm.
    unfold c1000_32 in Hm. unfold below_1000_32. lia.
  - rewrite Z.compare_lt_iff in Hc.
    split; [lia|]. split; [lia|].
    assert (Hm : Zpos m < 2 ^ 24).
    { apply Z.lt_le_trans with (1 := Hhi). apply Z.pow_le_mono_r; lia. }
    apply Z.le_trans with (val (Zpos m) (-15)).
    + replace (-15) with (e + (-15 - e)) by lia.
      rewrite val_shift by lia. apply val_mono; [lia|].
      pose proof (pow2_pos (-15 - e) ltac:(lia)). nia.
    + apply Z.le_trans with (val (2 ^ 24) (-15)).
      * apply val_mono; lia.
      * vm_compute. discriminate.
Qed.

(** Promotion to [double] of a float below 1000. *)
Lemma of_float_upper (m : positive) (e : Z) :
  - 149 <= e <= - 14 -> Zpos (digits2_pos m) <= 24 ->
  val (Zpos m) e <= val (Zpos below_1000_32) (-14) ->
  at_most below_1000_64 (-43) (F64.of_float (S754_finite false m e)).
Proof.
  intros He Hd Hv.
  cbn [F64.of_float F64.signed_mantissa binary_normalize].
  pose proof (eq_refl : scale = 1200) as Hsc.
  assert (Hez : Z.min e (fexp F64.prec F64.emax (Zpos (digits2_pos m) + e))
                <= - 43).
  { unfold fexp, emin, F64.prec, F64.emax. lia. }
  apply binary_round_upper.
  - reflexivity.
  - vm_compute. discriminate.
  - lia.
  - reflexivity.
  - vm_compute. discriminate.
  - exact Hez.
  - apply Z.le_trans
      with (val (Zpos below_1000_32) (-14) + val 1 (-43)).
    + apply Z.add_le_mono; [exact Hv|].
      apply val_unit_mono; [|exact Hez].
      unfold fexp, emin, F64.prec, F64.emax. lia.
    + vm_compute. discriminate.
Qed.

(** Dividing a [double] that is at most [1000 - 2^-15] by 1000 gives at
    most [1 - 2^-25]. *)
Lemma div_1000_upper (x : F64.double) :
  at_most below_1000_64 (-43) x ->
  at_most below_1_64 (-53) (F64.div x (F64.of_Z 1000)).
Proof.
  change (F64.of_Z 1000) with (S754_finite false c1000_64 (-43)).
  destruct x as [s|s| |s m e]; try destruct s; try contradiction;
    [intros _; exact I|].
  intros [He Hv]. unfold F64.div. cbn [SFdiv xorb].
  pose proof (eq_refl : scale = 1200) as Hsc.
  unfold SFdiv_core_binary.
  change (Zdigits2 (Zpos c1000_64)) with 53.
  cbn [Zdigits2].
  assert (Hd : Zpos (digits2_pos m) + e <= 10).
  { pose proof (magnitude_le m e below_1000_64 (-43) ltac:(lia) ltac:(lia) Hv)
      as H. change (Zpos (digits2_pos below_1000_64)) with 53 in H. lia. }
  set (d := Zpos (digits2_pos m)) in *.
  set (e' := Z.min (fexp F64.prec F64.emax (d + e - (53 + -43))) (e - -43)).
  set (sh := e - -43 - e').
  assert (He' : - 1074 <= e' <= - 53 /\ e' <= e + 43).
  { subst e'. unfold fexp, emin, F64.prec, F64.emax. lia. }
  assert (Hsh : 0 <= sh) by (subst sh; lia).
  set (m' := match sh with
             | 0 => Zpos m
             | Zpos _ => Z.shiftl (Zpos m) sh
             | Zneg _ => 0
             end).
  assert (Hm' : m' = Zpos m * 2 ^ sh).
  { subst m'. destruct sh as [|p|p]; [lia | | lia].
    apply Z.shiftl_mul_pow2. lia. }
  (* the operand, at the exponent of the bound *)
  assert (Hle : Zpos m <= Zpos below_1000_64 * 2 ^ (- 43 - e)).
  { apply (val_cancel _ _ e ltac:(lia)).
    rewrite <- val_shift by lia.
    replace (e + (-43 - e)) with (-43) by lia. exact Hv. }
  assert (Hq : m' / Zpos c1000_64 < Zpos below_1_64 * 2 ^ (- 53 - e')).
  { apply Z.div_lt_upper_bound; [lia|].
    rewrite Hm'.
    apply Z.le_lt_trans
      with (Zpos below_1000_64 * 2 ^ (- 43 - e) * 2 ^ sh).
    - apply Z.mul_le_mono_nonneg_r; [|exact Hle].
      apply Z.lt_le_incl, pow2_pos, Hsh.
    - rewrite <- Z.mul_assoc, <- Z.pow_add_r by lia.
      replace (- 43 - e + sh) with (53 + (- 53 - e')) by (subst sh; lia).
      rewrite Z.pow_add_r by lia.
      pose proof (pow2_pos (- 53 - e') ltac:(lia)) as Hpos.
      rewrite !Z.mul_assoc.
      apply Z.mul_lt_mono_pos_r; [exact Hpos|].
      vm_compute. reflexivity. }
  assert (Hq0 : 0 <= m' / Zpos c1000_64).
  { apply Z.div_pos; [|lia]. rewrite Hm'.
    pose proof (pow2_pos sh Hsh). lia. }
  assert (Hdiv : fst (Z.div_eucl m' (Zpos c1000_64)) = m' / Zpos c1000_64)
    by reflexivity.
  destruct (Z.div_eucl m' (Zpos c1000_64)) as [q r]. cbn [fst] in Hdiv.
  rewrite <- Hdiv in Hq, Hq0.
  apply binary_round_aux_upper.
  - reflexivity.
  - vm_compute. discriminate.
  - lia.
  - lia.
  - exact Hq0.
  - reflexivity.
  - vm_compute. discriminate.
  - replace (-53) with (e' + (- 53 - e')) by lia.
    rewrite val_shift by lia.
    apply val_mono; lia.
Qed.

(** Multiplying a [double] that is at most [1 - 2^-25] by 100 gives at
    most [100 - 2^-20]. *)
Lemma mul_100_upper (x : F64.double) :
  at_most below_1_64 (-53) x ->
  at_most below_100_64 (-46) (F64.mul x (F64.of_Z 100)).
Proof.
  change (F64.of_Z 100) with (S754_finite false c100_64 (-46)).
  destruct x as [s|s| |s m e]; try destruct s; try contradiction;
    [intros _; exact I|].
  intros [He Hv]. unfold F64.mul. cbn [SFmul xorb].
  pose proof (eq_refl : scale = 1200) as Hsc.
  apply binary_round_aux_upper.
  - reflexivity.
  - vm_compute. discriminate.
  - lia.
  - lia.
  - lia.
  - reflexivity.
  - vm_compute. discriminate.
  - rewrite val_plus.
    apply Z.le_trans
      with (val (Zpos below_1_64 * Zpos c100_64) (-99) + val 1 (-99)).
    + apply Z.add_le_mono; [|apply val_unit_mono; lia].
      rewrite Pos2Z.inj_mul.
      (* both sides at the exponent [e - 46] *)
      replace (-99) with (e + -46 + (- 53 - e)) by lia.
      rewrite (val_shift _ (e + -46) (- 53 - e)) by lia.
      apply val_mono; [lia|].
      assert (Hle : Zpos m <= Zpos below_1_64 * 2 ^ (- 53 - e)).
      { apply (val_cancel _ _ e ltac:(lia)).
        rewrite <- val_shift by lia.
        replace (e + (-53 - e)) with (-53) by lia. exact Hv. }
      nia.
    + vm_compute. discriminate.
Qed.

(** Narrowing a [double] that is at most [100 - 2^-20] gives a [float]
    that is at most 100. *)
Lemma to_float_upper (x : F64.double) :
  at_most below_100_64 (-46) x -> at_most c100_32 (-17) (F64.to_float x).
Proof.
  destruct x as [s|s| |s m e]; try destruct s; try contradiction;
    [intros _; exact I|].
  intros [He Hv].
  cbn [F64.to_float F64.signed_mantissa binary_normalize].
  pose proof (eq_refl : scale = 1200) as Hsc.
  apply binary_round_upper.
  - reflexivity.
  - vm_compute. discriminate.
  - lia.
  - reflexivity.
  - vm_compute. discriminate.
  - lia.
  - apply Z.le_trans with (val (Zpos below_100_64) (-46) + val 1 (-46)).
    + apply Z.add_le_mono; [exact Hv|].
      apply val_unit_mono; [|lia].
      unfold fexp, emin, F32.prec, F32.emax. lia.
    + vm_compute. discriminate.
Qed.

(** A float that is at most 100 passes the clamp of [loop] unchanged, and
    compares between 0 and 100. *)
Lemma clamp_at_most_100 (y : F32.float) :
  at_most c100_32 (-17) y ->
  F32.gtb y (F32.of_Z 100) = false
  /\ F32.leb (F32.of_Z 0) y = true
  /\ F32.leb y (F32.of_Z 100) = true.
Proof.
  change (F32.of_Z 100) with (S754_finite false c100_32 (-17)).
  change (F32.of_Z 0) with (S754_zero false).
  destruct y as [s|s| |s m e]; try destruct s; try contradiction;
    [intros _; repeat split|].
  intros [He Hv]. unfold F32.gtb, F32.leb, SFltb, SFleb. cbn [SFcompare].
  rewrite !compare_cont_Z.
  destruct (Z.eq_dec e (-17)) as [->|Hne].
  - apply val_cancel in Hv; [|vm_compute; discriminate].
    rewrite Z.compare_refl.
    rewrite (Z.compare_antisym (Zpos m) (Zpos c100_32)).
    destruct (Z.compare_spec (Zpos m) (Zpos c100_32)) as [Hm|Hm|Hm];
      cbn [CompOpp]; try (repeat split; fail).
    exfalso. apply (Z.lt_irrefl (Zpos m)).
    apply Z.le_lt_trans with (Zpos c100_32); [exact Hv | exact Hm].
  - rewrite (proj2 (Z.compare_gt_iff (-17) e)) by lia.
    rewrite (proj2 (Z.compare_lt_iff e (-17))) by lia.
    repeat split.
Qed.

(** Below 1000 lux the conversion stays at or below 100, and at or above
    0: the clamp leaves it as it is. *)
Lemma light_conversion_upper (lux : F32.float) :
  F32.valid lux = true ->
  F32.leb (F32.of_Z 0) lux = true -> F32.ltb lux (F32.of_Z 1000) = true ->
  F32.gtb (light_conversion lux) (F32.of_Z 100) = false
  /\ F32.leb (F32.of_Z 0) (light_conversion lux) = true
  /\ F32.leb (light_conversion lux) (F32.of_Z 100) = true.
Proof.
  intros Hvalid H0 Hlt.
  destruct (below_1000 lux Hvalid H0 Hlt)
    as [[s ->]|(m & e & -> & He & Hd & Hv)].
  - destruct s; repeat split.
  - apply clamp_at_most_100. unfold light_conversion.
    apply to_float_upper, mul_100_upper, div_1000_upper, of_float_upper;
      assumption.
Qed.

(** ** The light percentage and a tenth of the lux reading *)

(** The value of [p] is exactly one tenth of the value of [x]: both are
    whole numbers once scaled by [2^scale]. *)
Definition tenth_of (p x : F32.float) : Prop :=
  match p, x with
  | S754_zero _, S754_zero _ => True
  | S754_finite sp mp ep, S754_finite sx mx ex =>
      sp = sx /\ 10 * val (Zpos mp) ep = val (Zpos mx) ex
  | _, _ => False
  end.

(** A tick in which the light sensor returns 1 lux. *)
Definition one_lux : Sensors :=
  mkSensors 600 (F32.of_Z 1) (F32.of_Z 21) (F32.of_Z 50).

(** Floats that are the same datum (the same sign, mantissa and
    exponent). *)
Definition same_float (a b : spec_float) : bool :=
  match a, b with
  | S754_zero s, S754_zero s' | S754_infinity s, S754_infinity s' =>
      Bool.eqb s s'
  | S754_nan, S754_nan => true
  | S754_finite s m e, S754_finite s' m' e' =>
      Bool.eqb s s' && Pos.eqb m m' && Z.eqb e e'
  | _, _ => false
  end.

Lemma same_float_eq (a b : spec_float) : same_float a b = true -> a = b.
Proof.
  destruct a as [s|s| |s m e], b as [s'|s'| |s' m' e'];
    cbn [same_float]; try discriminate; try reflexivity.
  - intros H. apply eqb_prop in H. now subst.
  - intros H. apply eqb_prop in H. now subst.
  - intros H. apply andb_prop in H. destruct H as [H He].
    apply andb_prop in H. destruct H as [Hs Hm].
    apply eqb_prop in Hs. apply Pos.eqb_eq in Hm. apply Z.eqb_eq in He.
    now subst.
Qed.

(** The conversion of a whole number of lux against the [float] quotient
    of that number by 10. *)
Definition tenth_checked (k : nat) : bool :=
  same_float (light_conversion (F32.of_Z (Z.of_nat k)))
             (SFdiv F32.prec F32.emax (F32.of_Z (Z.of_nat k)) (F32.of_Z 10)).

Lemma tenth_checked_below_1000 : forallb tenth_checked (seq 0 1000) = true.
Proof. vm_compute. reflexivity. Qed.

Lemma whole_lux (n : Z) :
  0 <= n < 1000 ->
  light_conversion (F32.of_Z n)
  = SFdiv F32.prec F32.emax (F32.of_Z n) (F32.of_Z 10).
Proof.
  intros Hn.
  pose proof (proj1 (forallb_forall _ _) tenth_checked_below_1000
                (Z.to_nat n)) as Hall.
  unfold tenth_checked in Hall. rewrite Z2Nat.id in Hall by lia.
  apply same_float_eq, Hall, in_seq. lia.
Qed.

(** A whole number is a valid [float] in [0, 1000). *)
Definition in_range_checked (k : nat) : bool :=
  F32.valid (F32.of_Z (Z.of_nat k))
  && F32.leb (F32.of_Z 0) (F32.of_Z (Z.of_nat k))
  && F32.ltb (F32.of_Z (Z.of_nat k)) (F32.of_Z 1000).

Lemma in_range_checked_below_1000 :
  forallb in_range_checked (seq 0 1000) = true.
Proof. vm_compute. reflexivity. Qed.

Lemma of_Z_below_1000 (n : Z) :
  0 <= n < 1000 ->
  F32.valid (F32.of_Z n) = true
  /\ F32.leb (F32.of_Z 0) (F32.of_Z n) = true
  /\ F32.ltb (F32.of_Z n) (F32.of_Z 1000) = true.
Proof.
  intros Hn.
  pose proof (proj1 (forallb_forall _ _) in_range_checked_below_1000
                (Z.to_nat n)) as Hall.
  unfold in_range_checked in Hall. rewrite Z2Nat.id in Hall by lia.
  assert (Hin : In (Z.to_nat n) (seq 0 1000)) by (apply in_seq; lia).
  apply Hall in Hin. apply andb_prop in Hin. destruct Hin as [Hin H3].
  apply andb_prop in Hin. destruct Hin as [H1 H2]. auto.
Qed.

(** C5, as stated: false.  At 1 lux, a valid reading in [0, 1000), the
    tick stores [13421773 * 2^-27], which is not one tenth of the reading:
    ten times its mantissa is [134217730], not [2^27 = 134217728]. *)
Lemma light_percentage_not_a_tenth :
  F32.valid (readLightLevel one_lux) = true
  /\ F32.leb (F32.of_Z 0) (readLightLevel one_lux) = true
  /\ F32.ltb (readLightLevel one_lux) (F32.of_Z 1000) = true
  /\ readLightLevel one_lux = S754_finite false 8388608 (-23)
  /\ lightPercentage (globals (loop one_lux (power_on radio_idle)))
     = S754_finite false 13421773 (-27)
  /\ 10 * 13421773 <> 8388608 * 2 ^ (-23 - -27)
  /\ ~ (forall s w,
          F32.valid (readLightLevel s) = true ->
          F32.leb (F32.of_Z 0) (readLightLevel s) = true ->
          F32.ltb (readLightLevel s) (F32.of_Z 1000) = true ->
          tenth_of (lightPercentage (globals (loop s w))) (readLightLevel s)).
Proof.
  assert (H : lightPercentage (globals (loop one_lux (power_on radio_idle)))
              = S754_finite false 13421773 (-27))
    by (rewrite light_loop; vm_compute; reflexivity).
  split; [reflexivity|]. split; [reflexivity|]. split; [reflexivity|].
  split; [reflexivity|]. split; [exact H|].
  split; [vm_compute; discriminate|].
  intros Hall.
  specialize (Hall one_lux (power_on radio_idle) eq_refl eq_refl eq_refl).
  rewrite H in Hall.
  change (readLightLevel one_lux)
    with (S754_finite false 8388608 (-23)) in Hall.
  cbn [tenth_of] in Hall. destruct Hall as [_ Hv].
  vm_compute in Hv. discriminate Hv.
Qed.

(** C5, amended. For a valid lux reading, a tick stores as light percentage:
    exactly 100 when the reading compares at or above 1000; when it lies in
    [0, 1000), the value of [(lux / 1000.0) * 100] as the sketch computes it
    (divided and multiplied in [double], stored as [float]), to which the
    clamp does not apply, and which compares between 0 and 100; for a
    reading that is a whole number below 1000, this is the [float]
    quotient of the reading by 10, that is lux/10 rounded to the nearest
    [float]; and a reading below 0 is stored as converted, with its sign
    (there is no lower clamp). *)
Theorem light_percentage_of_lux (s : Sensors) (w : World) :
  F32.valid (readLightLevel s) = true ->
  (F32.leb (F32.of_Z 1000) (readLightLevel s) = true ->
   lightPercentage (globals (loop s w)) = F32.of_Z 100)
  /\ (F32.leb (F32.of_Z 0) (readLightLevel s) = true ->
      F32.ltb (readLightLevel s) (F32.of_Z 1000) = true ->
      lightPercentage (globals (loop s w))
        = light_conversion (readLightLevel s)
      /\ F32.leb (F32.of_Z 0) (lightPercentage (globals (loop s w))) = true
      /\ F32.leb (lightPercentage (globals (loop s w))) (F32.of_Z 100) = true)
  /\ (forall n, 0 <= n < 1000 -> readLightLevel s = F32.of_Z n ->
      lightPercentage (globals (loop s w))
        = SFdiv F32.prec F32.emax (F32.of_Z n) (F32.of_Z 10))
  /\ (F32.ltb (readLightLevel s) (F32.of_Z 0) = true ->
      lightPercentage (globals (loop s w))
        = light_conversion (readLightLevel s)
      /\ signed_as true (lightPercentage (globals (loop s w))) = true).
Proof.
  intros Hvalid. rewrite light_loop.
  assert (Hbelow :
    F32.leb (F32.of_Z 0) (readLightLevel s) = true ->
    F32.ltb (readLightLevel s) (F32.of_Z 1000) = true ->
    (if F32.gtb (light_conversion (readLightLevel s)) (F32.of_Z 100)
     then F32.of_Z 100 else light_conversion (readLightLevel s))
      = light_conversion (readLightLevel s)
    /\ F32.leb (F32.of_Z 0) (light_conversion (readLightLevel s)) = true
    /\ F32.leb (light_conversion (readLightLevel s)) (F32.of_Z 100) = true).
  { intros H0 Hlt.
    destruct (light_conversion_upper _ Hvalid H0 Hlt) as (Hgt & Hge & Hle).
    rewrite Hgt. auto. }
  split; [|split; [|split]].
  - intros Hle. apply clamp_at_least_100, light_conversion_lower; assumption.
  - intros H0 Hlt. destruct (Hbelow H0 Hlt) as (-> & Hge & Hle). auto.
  - intros n Hn Hlux.
    destruct (of_Z_below_1000 n Hn) as (_ & H0 & Hlt).
    rewrite <- Hlux in H0, Hlt.
    destruct (Hbelow H0 Hlt) as (-> & _).
    rewrite Hlux. now apply whole_lux.
  - intros Hneg.
    pose proof (light_conversion_signed true _ (below_zero_signed _ Hneg))
      as Hsign.
    destruct (negative_below_60 _ Hsign) as [_ ->]. auto.
Qed.

(** A tick in which the light sensor returns 500 lux. *)
Definition half_light : Sensors :=
  mkSensors 600 (F32.of_Z 500) (F32.of_Z 21) (F32.of_Z 50).

Lemma light_percentage_of_lux_witness :
  lightPercentage (globals (loop half_light (power_on radio_idle)))
    = F32.of_Z 50
  /\ lightPercentage (globals (loop one_lux (power_on radio_idle)))
    = light_conversion (F32.of_Z 1).
Proof.
  split.
  - destruct (light_percentage_of_lux half_light (power_on radio_idle)
                eq_refl) as (_ & _ & H & _).
    rewrite (H 500 ltac:(lia) eq_refl). vm_compute. reflexivity.
  - destruct (light_percentage_of_lux one_lux (power_on radio_idle)
                eq_refl) as (_ & H & _).
    destruct (H eq_refl eq_refl) as (-> & _). reflexivity.
Defined.

(** * The bodies of the two endpoints as JSON *)

(** ** JSON numbers *)

Definition is_digit (c : ascii) : bool :=
  let n := nat_of_ascii c in (48 <=? n)%nat && (n <=? 57)%nat.

Fixpoint skip_digits (s : string) : string :=
  match s with
  | String c r => if is_digit c then skip_digits r else s
  | EmptyString => s
  end.

(** One digit or more; what follows them. *)
Definition digits1 (s : string) : option string :=
  match s with
  | String c r => if is_digit c then Some (skip_digits r) else None
  | EmptyString => None
  end.

(** The grammar of RFC 8259: [ minus ] int [ frac ] [ exp ], where int is
    a single zero or starts with a digit from 1 to 9. *)
Definition number_sign (s : string) : string :=
  match s with
  | String "-" r => r
  | _ => s
  end.

Definition number_int (s : string) : option string :=
  match s with
  | String "0" r => Some r
  | _ => digits1 s
  end.

Definition number_frac (s : string) : option string :=
  match s with
  | String "." r => digits1 r
  | _ => Some s
  end.

Definition number_exp (s : string) : option string :=
  match s with
  | String c r =>
      if Ascii.eqb c "e" || Ascii.eqb c "E" then
        match r with
        | String c' r' =>
            if Ascii.eqb c' "+" || Ascii.eqb c' "-" then digits1 r'
            else digits1 r
        | EmptyString => None
        end
      else Some s
  | EmptyString => Some s
  end.

Definition json_number (s : string) : bool :=
  match number_int (number_sign s) with
  | Some r =>
      match number_frac r with
      | Some r' =>
          match number_exp r' with
          | Some EmptyString => true
          | _ => false
          end
      | None => false
      end
  | None => false
  end.

(** ** A decoder for objects of strings and numbers *)









(** What the decoder takes for a number, and what it does not. *)
Lemma json_number_examples :
  List.map json_number
    ["0.00"; "-12.5"; "100"; "6.02e+23"; "1E-2"; "0";
     "nan"; "inf"; EmptyString; "01"; "1."; ".5"; "+1"; "-"; "1e"; "}{"; "1,2"]
  = [true; true; true; true; true; true;
     false; false; false; false; false; false; false; false; false; false;
     false].
Proof. reflexivity. Qed.


















(** ** Reading the decoder backwards *)








Section ReadingsBody.

Variable String_of_float : F32.float -> string.






End ReadingsBody.

(** ** The states a request can find *)





Section Snapshots.

Variable String_of_float : F32.float -> string.









End Snapshots.

(** ** The two endpoints *)

Section Endpoints.

Variable String_of_float : F32.float -> string.



End Endpoints.


